(** * A short-video sharing backend: the Express/Sequelize server

    Shallow embedding of the two server files of the repository,
    [src/server.js] (every route wrapped in [try]/[catch]) and
    [src/unnamed/part_000] (the same routes without error handling), and
    the properties of the routes.

    Conventions.
    - A JavaScript number is an IEEE-754 binary64 value: Rocq's primitive
      [float].  The INTEGER columns ([likes], [views], the keys) hold
      32-bit integers, kept as [Z] with the range checked where the
      database checks it; [js_number] is the number JavaScript reads such
      a column as.
    - A STRING column is a VARCHAR(255): a longer value is refused by the
      database.  A string is the sequence of its characters.
    - A DATE is the clock reading in milliseconds, a [Z]; the clock reading
      [now] of a request is an input ([new Date()], the bookkeeping columns
      [createdAt] and [updatedAt] that Sequelize stamps, the clock of the
      token).  The clock reading at which the upload storage names a file
      comes with the file.
    - A table is the list of its rows in insertion order.  The primary key
      [id] that Sequelize adds to each model comes from the sequence of the
      table, whose last value is part of the state.
    - What the source does not decide is a parameter: [bcryptjs]
      ([Bcrypt]), [jsonwebtoken] ([Jwt]), Node's [path.extname] ([Path]),
      the file system under [videos/] ([Fs]), the environment variable
      JWT_SECRET ([Env]), and, of the database ([Postgres]), the order in
      which a query meets the rows of a table and whether a value it
      cannot store costs the sequence a key.
    - A request has a body (a JSON object or a form); a field of it
      ([Field]) is a string, null or absent, and a password that is not a
      string counts as absent (bcrypt treats all of them alike).  The text
      of a path parameter and the [id] of a token payload ([Param]) are an
      integer, of any size, or no integer.
    - The state is the database and the directory [videos/].  The
      database is there and answers; a request is handled from its first
      middleware to its answer before the next one starts.
    - The handlers of [src/unnamed/part_000] catch nothing: an exception
      rejects the promise of the handler ([Rejected]).  What the client
      then gets is Express's: version 4 sends nothing, version 5 answers
      500. *)

From Stdlib Require Import ZArith List String Ascii Bool Lia.
From Stdlib Require Import Sorted Permutation.
From Stdlib Require Import Floats Uint63.
From Stdlib Require Import Decimal DecimalString DecimalZ DecimalPos.
Import ListNotations.

Set Implicit Arguments.
Open Scope string_scope.
Open Scope Z_scope.

(** ** JavaScript values *)

(** A field of a request body. *)
Inductive Field :=
| Undefined
| Null
| Str (s : string).

(** What a column takes from a field: the string, or NULL. *)
Definition column (x : Field) : option string :=
  match x with
  | Str s => Some s
  | _ => None
  end.

Module JS.

(** [s.replace(pat, '')] with a string pattern: the first occurrence of
    [pat] in [s], wherever it is, is removed. *)
Fixpoint drop (n : nat) (s : string) : string :=
  match n, s with
  | O, _ => s
  | S n', String _ s' => drop n' s'
  | S _, EmptyString => EmptyString
  end.

Fixpoint replace_first (pat s : string) : string :=
  if String.prefix pat s then drop (String.length pat) s
  else match s with
       | EmptyString => EmptyString
       | String c s' => String c (replace_first pat s')
       end.

(** Does [pat] occur in [s]?  ([s.includes(pat)]) *)
Fixpoint includes (pat s : string) : bool :=
  String.prefix pat s ||
  match s with
  | EmptyString => false
  | String _ s' => includes pat s'
  end.

(** Truthiness of a string: only the empty string is falsy. *)
Definition truthy (s : string) : bool :=
  match s with EmptyString => false | _ => true end.

(** [a || b] on strings that may be undefined. *)
Definition or_else (a : option string) (b : string) : string :=
  match a with
  | Some s => if truthy s then s else b
  | None => b
  end.

(** [x + s] where [x] may be undefined or null: string concatenation
    after conversion of [x] to a string. *)
Definition to_string (x : Field) : string :=
  match x with
  | Str s => s
  | Null => "null"
  | Undefined => "undefined"
  end.

Definition concat (x : Field) (s : string) : string :=
  to_string x ++ s.

(** The number read from an INTEGER column (the conversion is exact below
    2^53 in absolute value). *)
Definition js_number (z : Z) : float :=
  match z with
  | Zneg _ => (- of_uint63 (Uint63.of_Z (- z)))%float
  | _ => of_uint63 (Uint63.of_Z z)
  end.

End JS.

(** ** What the database accepts *)

(** A value that is to be an integer: the text of a path parameter
    ([req.params.id]) or the [id] of a token payload.  It is an integer or
    it is not. *)
Inductive Param :=
| Integer (z : Z)
| NotInteger.

(** The range of INTEGER. *)
Definition int4 (z : Z) : bool := (-2147483648 <=? z) && (z <=? 2147483647).

(** The integer that the database reads: none when the text is not an
    integer or the integer is out of range (the query throws). *)
Definition as_int4 (p : Param) : option Z :=
  match p with
  | Integer z => if int4 z then Some z else None
  | NotInteger => None
  end.

(** A value fits a STRING column when it is absent (NULL) or has at most
    255 characters. *)
Definition varchar255 (x : option string) : bool :=
  match x with
  | Some s => (String.length s <=? 255)%nat
  | None => true
  end.

(** ** The Sequelize models (src/server.js, lines 23-51)

    Every model has, besides the declared columns, the key [id] and the
    columns [createdAt] and [updatedAt]. *)

Module User.
Record t := mk {
  id : Z;
  email : option string;
  password : string;
  username : option string;
  followers : list Z;
  following : list Z;
  createdAt : Z;
  updatedAt : Z
}.
End User.

Module Video.
Record t := mk {
  id : Z;
  url : string;
  caption : option string;
  userId : option Z;
  likes : Z;
  views : Z;
  timestamp : Z;
  recommendationsScore : float;
  createdAt : Z;
  updatedAt : Z
}.

Definition set_likes (n : Z) (v : t) : t :=
  mk (id v) (url v) (caption v) (userId v) n (views v) (timestamp v)
     (recommendationsScore v) (createdAt v) (updatedAt v).

Definition set_recommendationsScore (x : float) (v : t) : t :=
  mk (id v) (url v) (caption v) (userId v) (likes v) (views v) (timestamp v) x
     (createdAt v) (updatedAt v).


Definition set_updatedAt (d : Z) (v : t) : t :=
  mk (id v) (url v) (caption v) (userId v) (likes v) (views v) (timestamp v)
     (recommendationsScore v) (createdAt v) d.
End Video.

Module Comment.
Record t := mk {
  id : Z;
  videoId : Z;
  userId : option Z;
  text : option string;
  timestamp : Z;
  createdAt : Z;
  updatedAt : Z
}.
End Comment.

(** The state: the three tables, the last value of the sequence of each,
    and the names of the files of [videos/] (none when the directory does
    not exist). *)
Record Store := mkStore {
  users : list User.t;
  videos : list Video.t;
  comments : list Comment.t;
  users_seq : Z;
  videos_seq : Z;
  comments_seq : Z;
  disk : option (list string)
}.

Definition set_users (x : list User.t) (s : Store) : Store :=
  mkStore x (videos s) (comments s) (users_seq s) (videos_seq s)
          (comments_seq s) (disk s).
Definition set_videos (x : list Video.t) (s : Store) : Store :=
  mkStore (users s) x (comments s) (users_seq s) (videos_seq s)
          (comments_seq s) (disk s).
Definition set_comments (x : list Comment.t) (s : Store) : Store :=
  mkStore (users s) (videos s) x (users_seq s) (videos_seq s)
          (comments_seq s) (disk s).
Definition set_users_seq (k : Z) (s : Store) : Store :=
  mkStore (users s) (videos s) (comments s) k (videos_seq s)
          (comments_seq s) (disk s).
Definition set_videos_seq (k : Z) (s : Store) : Store :=
  mkStore (users s) (videos s) (comments s) (users_seq s) k
          (comments_seq s) (disk s).
Definition set_comments_seq (k : Z) (s : Store) : Store :=
  mkStore (users s) (videos s) (comments s) (users_seq s) (videos_seq s)
          k (disk s).
Definition set_disk (d : option (list string)) (s : Store) : Store :=
  mkStore (users s) (videos s) (comments s) (users_seq s) (videos_seq s)
          (comments_seq s) d.

(** The state before any request: empty tables, fresh sequences, and the
    directory as it is found. *)
Definition initial_store (d : option (list string)) : Store :=
  mkStore [] [] [] 0 0 0 d.

Definition empty_store : Store := initial_store (Some []).

(** ** Exceptions and the monad of a handler body

    An [await]ed call either yields a value or throws; a handler body is a
    sequence of such calls over the state. *)

Inductive Exn :=
| TypeError (msg : string)
| IllegalArguments
| InvalidWhere
| DataError
| UniqueConstraintError
| ForeignKeyConstraintError.

Definition M (A : Type) : Type := Store -> Store * (Exn + A).

Definition ret {A} (a : A) : M A := fun s => (s, inr a).
Definition throw {A} (e : Exn) : M A := fun s => (s, inl e).
Definition bind {A B} (m : M A) (k : A -> M B) : M B :=
  fun s => match m s with
           | (s', inr a) => k a s'
           | (s', inl e) => (s', inl e)
           end.
Definition try_catch {A} (m : M A) (h : Exn -> M A) : M A :=
  fun s => match m s with
           | (s', inl e) => h e s'
           | r => r
           end.

Notation "x <- m ;; k" := (bind m (fun x => k))
  (at level 61, m at next level, right associativity).

(** ** The database: PostgreSQL behind the model methods *)

(** The queries of the routes. *)
Inductive Query :=
| UserOfEmail (e : option string)
| VideosByTimestamp
| VideosByScore
| VideosOfUser (u : Z)
| CommentsOfVideo (v : Z).

(** Why the database refuses a value: a string over 255 characters, or
    something that is no 32-bit integer where one is due. *)
Inductive Refusal :=
| TooLong
| NotAnInteger.

(** What the database decides by itself.  [users_scan q l],
    [videos_scan q l] and [comments_scan q l] are the rows of a table in
    the order in which the query [q] meets them (the order of the heap,
    which writes change): some permutation of the table.  Rows that the
    ORDER BY of a query does not tell apart, and the rows of a query
    without ORDER BY, come in that order.  [refusal_costs_key] says whether
    an insert that is refused for a value the column cannot hold has taken
    a key from the sequence. *)
Class Postgres := {
  users_scan : Query -> list User.t -> list User.t;
  users_scan_perm : forall q l, Permutation (users_scan q l) l;
  videos_scan : Query -> list Video.t -> list Video.t;
  videos_scan_perm : forall q l, Permutation (videos_scan q l) l;
  comments_scan : Query -> list Comment.t -> list Comment.t;
  comments_scan_perm : forall q l, Permutation (comments_scan q l) l;
  refusal_costs_key : Refusal -> bool
}.

Definition has_email (e : string) (u : User.t) : bool :=
  match User.email u with
  | Some x => String.eqb x e
  | None => false
  end.

(** [email] is declared [unique: true] (line 24); NULLs do not clash. *)
Definition email_taken (e : option string) (us : list User.t) : bool :=
  match e with
  | Some x => existsb (has_email x) us
  | None => false
  end.

Definition has_user (i : Z) (s : Store) : bool :=
  existsb (fun u => User.id u =? i) (users s).

Definition has_video (i : Z) (s : Store) : bool :=
  existsb (fun v => Video.id v =? i) (videos s).

Definition has_comment (i : Z) (s : Store) : bool :=
  existsb (fun c => Comment.id c =? i) (comments s).

(** A foreign key into the users holds when it is NULL or the key of a
    stored user. *)
Definition user_ref_ok (o : option Z) (s : Store) : bool :=
  match o with
  | None => true
  | Some i => has_user i s
  end.

(** The value of [userId: req.user.id] as the database reads it: NULL
    for a payload without [id]; none when the [id] is no 32-bit
    integer. *)
Definition fk_value (p : option Param) : option (option Z) :=
  match p with
  | None => Some None
  | Some x => option_map Some (as_int4 x)
  end.

Section Database.
Context `{Postgres}.

(** The state after an insert that is refused for a value the column
    cannot hold. *)
Definition refused_users (why : Refusal) (s : Store) : Store :=
  if refusal_costs_key why && int4 (users_seq s + 1)
  then set_users_seq (users_seq s + 1) s else s.
Definition refused_videos (why : Refusal) (s : Store) : Store :=
  if refusal_costs_key why && int4 (videos_seq s + 1)
  then set_videos_seq (videos_seq s + 1) s else s.
Definition refused_comments (why : Refusal) (s : Store) : Store :=
  if refusal_costs_key why && int4 (comments_seq s + 1)
  then set_comments_seq (comments_seq s + 1) s else s.

(** [User.create].  The values must fit their columns; the key is the
    next value of the sequence, which is taken even when a constraint (the
    unique email, the primary key) then refuses the row. *)
Definition User_create (now : Z) (e : option string) (p : string)
    (n : option string) : M User.t :=
  fun s =>
    if negb (varchar255 e && varchar255 (Some p) && varchar255 n)
    then (refused_users TooLong s, inl DataError)
    else
      let k := users_seq s + 1 in
      if negb (int4 k) then (s, inl DataError)
      else
        let s1 := set_users_seq k s in
        if email_taken e (users s) || has_user k s
        then (s1, inl UniqueConstraintError)
        else
          let u := User.mk k e p n [] [] now now in
          (set_users (users s ++ [u]) s1, inr u).

(** Does the row have this email (NULL: no email)? *)
Definition email_is (e : option string) (u : User.t) : bool :=
  match e, User.email u with
  | Some x, Some y => String.eqb y x
  | None, None => true
  | _, _ => false
  end.

(** [User.findOne({ where: { email } })]: an undefined value in [where]
    is an error of Sequelize; null asks for a row without email.  The
    query has no ORDER BY: of several rows it returns the one it meets
    first.  [user_with_email e s] is the row that the query returns, if
    any. *)
Definition user_with_email (e : Field) (s : Store) : option User.t :=
  find (email_is (column e)) (users_scan (UserOfEmail (column e)) (users s)).

Definition User_findOne (e : Field) : M (option User.t) :=
  match e with
  | Undefined => throw InvalidWhere
  | _ => fun s => (s, inr (user_with_email e s))
  end.

Definition User_findByPk (p : Param) : M (option User.t) :=
  match as_int4 p with
  | None => throw DataError
  | Some i => fun s => (s, inr (find (fun u => User.id u =? i) (users s)))
  end.

(** [Video.create]: [likes] and [views] take their default 0;
    [User.hasMany(Video, { foreignKey: 'userId' })] (line 49) makes
    [userId] a foreign key into the users (an association adds the
    REFERENCES constraint unless it says [constraints: false]). *)
Definition Video_create (now : Z) (u : string) (c : option string)
    (uid : option Param) (ts : Z) (score : float) : M Video.t :=
  fun s =>
    match fk_value uid with
    | None => (refused_videos NotAnInteger s, inl DataError)
    | Some owner =>
        if negb (varchar255 (Some u) && varchar255 c)
        then (refused_videos TooLong s, inl DataError)
        else
          let k := videos_seq s + 1 in
          if negb (int4 k) then (s, inl DataError)
          else
            let s1 := set_videos_seq k s in
            if has_video k s then (s1, inl UniqueConstraintError)
            else if negb (user_ref_ok owner s)
            then (s1, inl ForeignKeyConstraintError)
            else
              let v := Video.mk k u c owner 0 0 ts score now now in
              (set_videos (videos s ++ [v]) s1, inr v)
    end.

Definition Video_findByPk (p : Param) : M (option Video.t) :=
  match as_int4 p with
  | None => throw DataError
  | Some i => fun s => (s, inr (find (fun v => Video.id v =? i) (videos s)))
  end.

(** [video.save()]: the row with the key of the instance takes the
    values of the instance and the clock reading as [updatedAt]; the
    instance has them too.  A value of [likes] outside INTEGER is
    refused. *)
Definition Video_save (now : Z) (v : Video.t) : M Video.t :=
  fun s =>
    if int4 (Video.likes v) then
      let v' := Video.set_updatedAt now v in
      (set_videos
         (map (fun w => if Video.id w =? Video.id v then v' else w) (videos s))
         s,
       inr v')
    else (s, inl DataError).

(** [Comment.create]: [Video.hasMany(Comment, { foreignKey: 'videoId' })]
    and [User.hasMany(Comment, { foreignKey: 'userId' })] (lines 50-51)
    make [videoId] and [userId] foreign keys: the insert of a row whose
    video is not stored, or whose user is neither NULL nor stored, is
    refused. *)
Definition Comment_create (now : Z) (vid : Param) (uid : option Param)
    (t : option string) (ts : Z) : M Comment.t :=
  fun s =>
    match as_int4 vid, fk_value uid with
    | Some video, Some author =>
        if negb (varchar255 t) then (refused_comments TooLong s, inl DataError)
        else
          let k := comments_seq s + 1 in
          if negb (int4 k) then (s, inl DataError)
          else
            let s1 := set_comments_seq k s in
            if has_comment k s then (s1, inl UniqueConstraintError)
            else if negb (has_video video s && user_ref_ok author s)
            then (s1, inl ForeignKeyConstraintError)
            else
              let c := Comment.mk k video author t ts now now in
              (set_comments (comments s ++ [c]) s1, inr c)
    | _, _ => (refused_comments NotAnInteger s, inl DataError)
    end.
End Database.

(** *** ORDER BY ... DESC and LIMIT

    [findAll({ order: [[column, 'DESC']] })] returns the rows sorted by the
    column, largest first; rows with equal keys come as the query met them.
    [precedes a b] says that [a] may come before [b]. *)

Section OrderBy.
Variable A : Type.
Variable precedes : A -> A -> bool.

Fixpoint insert_row (x : A) (l : list A) : list A :=
  match l with
  | [] => [x]
  | y :: l' => if precedes x y then x :: y :: l' else y :: insert_row x l'
  end.

Definition order_by (l : list A) : list A := fold_right insert_row [] l.
End OrderBy.

(** The order of the database on double precision values: as IEEE, with
    NaN equal to itself and above every other value. *)
Definition float8_le (x y : float) : bool :=
  if is_nan y then true
  else if is_nan x then false
  else (x <=? y)%float.

Definition timestamp_desc (a b : Video.t) : bool :=
  Video.timestamp b <=? Video.timestamp a.

Definition recommendationsScore_desc (a b : Video.t) : bool :=
  float8_le (Video.recommendationsScore b) (Video.recommendationsScore a).

Definition comment_timestamp_desc (a b : Comment.t) : bool :=
  Comment.timestamp b <=? Comment.timestamp a.

Section Queries.
Context `{Postgres}.

Definition Video_findAll_by_timestamp : M (list Video.t) :=
  fun s =>
    (s, inr (order_by timestamp_desc (videos_scan VideosByTimestamp (videos s)))).

Definition Video_findAll_by_recommendationsScore (limit : nat)
    : M (list Video.t) :=
  fun s =>
    (s, inr (firstn limit
               (order_by recommendationsScore_desc
                  (videos_scan VideosByScore (videos s))))).

(** [Video.findAll({ where: { userId } })]: no ORDER BY. *)
Definition Video_findAll_where_userId (p : Param) : M (list Video.t) :=
  match as_int4 p with
  | None => throw DataError
  | Some u =>
      fun s =>
        (s, inr (filter (fun v => match Video.userId v with
                                  | Some o => o =? u
                                  | None => false
                                  end)
                        (videos_scan (VideosOfUser u) (videos s))))
  end.

Definition Comment_findAll_where_videoId (p : Param) : M (list Comment.t) :=
  match as_int4 p with
  | None => throw DataError
  | Some i =>
      fun s =>
        (s, inr (order_by comment_timestamp_desc
                   (filter (fun c => Comment.videoId c =? i)
                           (comments_scan (CommentsOfVideo i) (comments s)))))
  end.
End Queries.

(** ** The libraries and the environment *)

(** [bcryptjs]: [hash(password, rounds)] and [compare(password, hash)],
    on strings. *)
Class Bcrypt := {
  bcrypt_hash : string -> Z -> string;
  bcrypt_compare : string -> string -> bool
}.

(** Both throw when the password is not a string. *)
Definition bcrypt_hash_js `{Bcrypt} (password : Field) (rounds : Z)
    : M string :=
  match password with
  | Str p => ret (bcrypt_hash p rounds)
  | _ => throw IllegalArguments
  end.

Definition bcrypt_compare_js `{Bcrypt} (password : Field)
    (hash : string) : M bool :=
  match password with
  | Str p => ret (bcrypt_compare p hash)
  | _ => throw IllegalArguments
  end.

(** What [jwt.verify] returns and the middleware stores in [req.user]:
    the payload of the token, of which the routes read [id]. *)
Record Payload := mkPayload { payload_id : option Param }.

(** [jsonwebtoken]: [sign({ id }, secret, { expiresIn: '1d' })] at a clock
    reading, and [verify(token, secret)] at a clock reading, which yields
    the payload or throws. *)
Class Jwt := {
  jwt_sign : Z -> string -> Z -> string;
  jwt_verify : string -> string -> Z -> option Payload
}.

Class Env := { JWT_SECRET : option string }.

(** [process.env.JWT_SECRET || 'secret'] *)
Definition secret `{Env} : string := JS.or_else JWT_SECRET "secret".

(** ** The upload storage (src/server.js, lines 54-58)

    [multer.diskStorage]: every file goes to [videos/], under the name
    [Date.now() + path.extname(file.originalname)], the clock reading
    converted to a string (an integer in decimal) followed by the extension
    of the original name.  [path.extname] is Node's. *)

Class Path := { path_extname : string -> string }.

(** Whether the file system takes a file of this name in [videos/]. *)
Class Fs := { fs_accepts : string -> bool }.

(** The string of an integer number. *)
Definition number_to_string (z : Z) : string :=
  DecimalString.NilZero.string_of_int (Z.to_int z).

Definition storage_destination : string := "videos/".

Definition storage_filename `{Path} (clock : Z) (originalname : string)
    : string :=
  number_to_string clock ++ path_extname originalname.

(** An extension as [path.extname] returns them: empty, or from a dot
    on. *)
Definition is_extension (e : string) : bool :=
  match e with
  | EmptyString => true
  | String c _ => Ascii.eqb c "."
  end.

Fixpoint dotless (s : string) : bool :=
  match s with
  | EmptyString => true
  | String c s' => negb (Ascii.eqb c ".") && dotless s'
  end.

(** The file of a request, with the clock reading at which the storage
    names it. *)
Record Upload := mkUpload { originalname : string; stored_at : Z }.

(** A file written under a name replaces the file of that name. *)
Definition store_file (name : string) (names : list string) : list string :=
  if existsb (String.eqb name) names then names else names ++ [name].

(** ** Responses *)

Inductive Body :=
| Text (s : string)
| JsonError (error : string)
| JsonToken (token : string)
| JsonVideo (v : Video.t)
| JsonVideos (vs : list Video.t)
| JsonComment (c : Comment.t)
| JsonComments (cs : list Comment.t)
| JsonProfile (user : option User.t) (vs : list Video.t)
| Redirect (location : string)
| StoredFile (name : string)
| ErrorPage
| NotFoundPage
| NoContent.

Record Response := mkResponse { status : Z; body : Body }.

(** What the handler of a request ends in: a response, or a rejected
    promise that nothing in the file catches.  (What becomes of such a
    request is Express's: version 4 sends no response, version 5 hands the
    error to its error handler, which answers 500.) *)
Inductive Outcome :=
| Responded (r : Response)
| Rejected (e : Exn).

Definition respond (st : Z) (b : Body) : M Outcome :=
  ret (Responded (mkResponse st b)).

(** The handler of the route is [async]: what it throws outside a
    [try]/[catch] rejects its promise. *)
Definition route (m : M Outcome) (s : Store) : Store * Outcome :=
  match m s with
  | (s', inr o) => (s', o)
  | (s', inl e) => (s', Rejected e)
  end.

(** An error that a middleware hands to [next] is answered by the error
    handler of Express, with the status of the error or 500. *)
Definition express_error (st : Z) : M Outcome := respond st ErrorPage.

(** ** The requests *)

Inductive Request :=
| OPTIONS
| MALFORMED_JSON
| GET_videos
| GET_videos_slash
| GET_videos_file (name : string)
| GET_recommended
| POST_register (email password username : Field)
| POST_login (email password : Field)
| POST_videos (authorization : option string) (file : option Upload)
    (caption : Field)
| POST_videos_like (authorization : option string) (id : Param)
| GET_videos_comments (id : Param)
| POST_videos_comments (authorization : option string) (id : Param)
    (text : Field)
| GET_profile (userId : Param)
| POST_duets (authorization : option string) (file : option Upload)
    (caption : Field)
| UNMATCHED.

(** [OPTIONS]: a preflight request, on any path.  [MALFORMED_JSON]: a
    request whose JSON body does not parse.  [GET_videos],
    [GET_videos_slash], [GET_videos_file name]: GET of [/videos], of
    [/videos/] and of [/videos/name], [name] one path segment.
    [UNMATCHED]: a request of a method and path that no route has. *)

(** ** The middleware ahead of the routes (lines 13-15, 53-71) *)

(** [cors()] (line 13) answers a preflight request itself. *)
Definition cors_preflight : M Outcome := respond 204 NoContent.

(** [express.static('videos')] mounted on [/videos] (line 15).
    [served name s]: GET [/videos/name] finds a file to send (files whose
    name begins with a dot are not sent). *)
Definition served (name : string) (s : Store) : bool :=
  match disk s with
  | Some names =>
      negb (String.prefix "." name) && existsb (String.eqb name) names
  | None => false
  end.

(** GET [/videos], the mount point without a slash: when [videos/] is a
    directory the answer is a redirect to [/videos/]; otherwise the
    request goes on to the routes. *)
Definition static_mount (next : M Outcome) : M Outcome :=
  fun s =>
    match disk s with
    | Some _ => respond 301 (Redirect "/videos/") s
    | None => next s
    end.

(** GET [/videos/]: the index file of the directory if there is one,
    otherwise on to the routes, where [/videos] matches. *)
Definition static_index (next : M Outcome) : M Outcome :=
  fun s =>
    if served "index.html" s then respond 200 (StoredFile "index.html") s
    else next s.

(** GET [/videos/name], [name] one path segment. *)
Definition static_file (name : string) (next : M Outcome) : M Outcome :=
  fun s =>
    if served name s then respond 200 (StoredFile name) s else next s.

(** [upload.single('video')]: the file of the request, if there is one,
    is written to [videos/] and [req.file.filename] is its name; when the
    directory does not exist or the file system refuses the name, the
    error goes to [next]. *)
Definition upload_single `{Path} `{Fs} (file : option Upload)
    (next : option string -> M Outcome) : M Outcome :=
  match file with
  | None => next None
  | Some f =>
      fun s =>
        let name := storage_filename (stored_at f) (originalname f) in
        match disk s with
        | None => express_error 500 s
        | Some names =>
            if fs_accepts name
            then next (Some name) (set_disk (Some (store_file name names)) s)
            else express_error 500 s
        end
  end.

Section Auth.
Context `{Jwt} `{Env}.

(** [req.header('Authorization')?.replace('Bearer ', '')] *)
Definition bearer_token (authorization : option string) : option string :=
  option_map (JS.replace_first "Bearer ") authorization.

(** The middleware either answers 401 itself or calls [next] with
    [req.user] set to the decoded payload. *)
Definition authMiddleware (now : Z) (authorization : option string)
    (next : Payload -> M Outcome) : M Outcome :=
  match bearer_token authorization with
  | None => respond 401 (Text "No token")
  | Some token =>
      if negb (JS.truthy token) then respond 401 (Text "No token")
      else match jwt_verify token secret now with
           | Some user => next user
           | None => respond 401 (Text "Invalid token")
           end
  end.

(** The payload the middleware hands to the route, when it lets the
    request through. *)
Definition decoded (now : Z) (authorization : option string)
    : option Payload :=
  match bearer_token authorization with
  | None => None
  | Some token =>
      if JS.truthy token then jwt_verify token secret now else None
  end.
End Auth.

(** [`/videos/${req.file.filename}`].  [req.file] is undefined when the
    request carries no file, and reading its [filename] throws. *)
Definition file_url (file : option string) : M string :=
  match file with
  | Some filename => ret ("/videos/" ++ filename)
  | None => throw (TypeError "Cannot read properties of undefined (reading 'filename')")
  end.

(** The ranking rule as the specification words it:
    [score(likes, views) = likes + views / 10], in floating point. *)
Definition spec_score (likes views : Z) : float :=
  (JS.js_number likes + JS.js_number views / 10)%float.

(** [video.likes += 1;
     video.recommendationsScore = video.likes + video.views / 10;] *)
Definition like (video : Video.t) : Video.t :=
  let video := Video.set_likes (Video.likes video + 1) video in
  Video.set_recommendationsScore
    (JS.js_number (Video.likes video) + JS.js_number (Video.views video) / 10)%float
    video.

(** ** src/server.js: the routes, each in [try]/[catch] *)

Module Server.
Section Routes.
Context `{Bcrypt} `{Jwt} `{Env} `{Path} `{Fs} `{Postgres}.

(** The clock reading of the request. *)
Variable now : Z.

Definition get_videos : M Outcome :=
  try_catch
    (videos <- Video_findAll_by_timestamp ;;
     respond 200 (JsonVideos videos))
    (fun _ => respond 500 (JsonError "Internal server error")).

Definition get_recommended : M Outcome :=
  try_catch
    (videos <- Video_findAll_by_recommendationsScore 20 ;;
     respond 200 (JsonVideos videos))
    (fun _ => respond 500 (JsonError "Internal server error")).

Definition post_register (email password username : Field) : M Outcome :=
  try_catch
    (hashed <- bcrypt_hash_js password 10 ;;
     user <- User_create now (column email) hashed (column username) ;;
     let token := jwt_sign (User.id user) secret now in
     respond 200 (JsonToken token))
    (fun _ => respond 500 (JsonError "Registration failed")).

Definition post_login (email password : Field) : M Outcome :=
  try_catch
    (user <- User_findOne email ;;
     match user with
     | None => respond 401 (JsonError "Invalid credentials")
     | Some user =>
         ok <- bcrypt_compare_js password (User.password user) ;;
         if negb ok
         then respond 401 (JsonError "Invalid credentials")
         else
           let token := jwt_sign (User.id user) secret now in
           respond 200 (JsonToken token)
     end)
    (fun _ => respond 500 (JsonError "Login failed")).

Definition post_videos (authorization : option string)
    (file : option Upload) (caption : Field) : M Outcome :=
  authMiddleware now authorization (fun user =>
    upload_single file (fun file =>
      try_catch
        (url <- file_url file ;;
         video <- Video_create now url (column caption) (payload_id user)
                    now 0%float ;;
         respond 200 (JsonVideo video))
        (fun _ => respond 500 (JsonError "Upload failed")))).

Definition post_videos_like (authorization : option string) (id : Param)
    : M Outcome :=
  authMiddleware now authorization (fun _ =>
    try_catch
      (video <- Video_findByPk id ;;
       match video with
       | None => respond 404 (JsonError "Video not found")
       | Some video =>
           let video := like video in
           video <- Video_save now video ;;
           respond 200 (JsonVideo video)
       end)
      (fun _ => respond 500 (JsonError "Like failed"))).

Definition get_videos_comments (id : Param) : M Outcome :=
  try_catch
    (comments <- Comment_findAll_where_videoId id ;;
     respond 200 (JsonComments comments))
    (fun _ => respond 500 (JsonError "Comments fetch failed")).

Definition post_videos_comments (authorization : option string)
    (id : Param) (text : Field) : M Outcome :=
  authMiddleware now authorization (fun user =>
    try_catch
      (comment <- Comment_create now id (payload_id user) (column text) now ;;
       respond 200 (JsonComment comment))
      (fun _ => respond 500 (JsonError "Comment failed"))).

Definition get_profile (userId : Param) : M Outcome :=
  try_catch
    (user <- User_findByPk userId ;;
     match user with
     | None => respond 404 (JsonError "User not found")
     | Some user =>
         videos <- Video_findAll_where_userId userId ;;
         respond 200 (JsonProfile (Some user) videos)
     end)
    (fun _ => respond 500 (JsonError "Profile fetch failed")).

Definition post_duets (authorization : option string)
    (file : option Upload) (caption : Field) : M Outcome :=
  authMiddleware now authorization (fun user =>
    upload_single file (fun file =>
      try_catch
        (url <- file_url file ;;
         video <- Video_create now url (Some (JS.concat caption " (Duet)"))
                    (payload_id user) now 0%float ;;
         respond 200 (JsonVideo video))
        (fun _ => respond 500 (JsonError "Duet upload failed")))).

(** The catch-all of lines 205-207. *)
Definition route_not_found : M Outcome :=
  respond 404 (JsonError "Route not found").

(** The application: the middleware of lines 13-15, then the routes in
    the order of the file, then the catch-all. *)
Definition handle (r : Request) : Store -> Store * Outcome :=
  route match r with
  | OPTIONS => cors_preflight
  | MALFORMED_JSON => express_error 400
  | GET_videos => static_mount get_videos
  | GET_videos_slash => static_index get_videos
  | GET_videos_file name => static_file name route_not_found
  | GET_recommended => get_recommended
  | POST_register e p n => post_register e p n
  | POST_login e p => post_login e p
  | POST_videos a f c => post_videos a f c
  | POST_videos_like a i => post_videos_like a i
  | GET_videos_comments i => get_videos_comments i
  | POST_videos_comments a i t => post_videos_comments a i t
  | GET_profile u => get_profile u
  | POST_duets a f c => post_duets a f c
  | UNMATCHED => route_not_found
  end.
End Routes.

(** The states that requests lead to, from empty tables and whatever
    the directory holds. *)
Inductive reachable `{Bcrypt} `{Jwt} `{Env} `{Path} `{Fs} `{Postgres}
    : Store -> Prop :=
| reach_initial d : reachable (initial_store d)
| reach_handle now r s : reachable s -> reachable (fst (handle now r s)).
End Server.

(** ** src/unnamed/part_000: the same routes, without [try]/[catch]

    The middleware, the models and the storage of the file are those of
    [src/server.js]; the handlers have no [try]/[catch], no test of the
    result of [findByPk], and the file has no catch-all. *)

Module Part000.
Section Routes.
Context `{Bcrypt} `{Jwt} `{Env} `{Path} `{Fs} `{Postgres}.
Variable now : Z.

Definition post_register (email password username : Field) : M Outcome :=
  hashed <- bcrypt_hash_js password 10 ;;
  user <- User_create now (column email) hashed (column username) ;;
  let token := jwt_sign (User.id user) secret now in
  respond 200 (JsonToken token).

Definition post_login (email password : Field) : M Outcome :=
  user <- User_findOne email ;;
  match user with
  | None => respond 401 (Text "Invalid credentials")
  | Some user =>
      ok <- bcrypt_compare_js password (User.password user) ;;
      if negb ok
      then respond 401 (Text "Invalid credentials")
      else
        let token := jwt_sign (User.id user) secret now in
        respond 200 (JsonToken token)
  end.

Definition get_videos : M Outcome :=
  videos <- Video_findAll_by_timestamp ;;
  respond 200 (JsonVideos videos).

Definition get_recommended : M Outcome :=
  videos <- Video_findAll_by_recommendationsScore 20 ;;
  respond 200 (JsonVideos videos).

Definition post_videos (authorization : option string)
    (file : option Upload) (caption : Field) : M Outcome :=
  authMiddleware now authorization (fun user =>
    upload_single file (fun file =>
      url <- file_url file ;;
      video <- Video_create now url (column caption) (payload_id user)
                 now 0%float ;;
      respond 200 (JsonVideo video))).

(** [video.likes += 1] on the [null] that [findByPk] returns for an id
    without a row throws a TypeError. *)
Definition post_videos_like (authorization : option string) (id : Param)
    : M Outcome :=
  authMiddleware now authorization (fun _ =>
    video <- Video_findByPk id ;;
    match video with
    | None => throw (TypeError "Cannot read properties of null (reading 'likes')")
    | Some video =>
        let video := like video in
        video <- Video_save now video ;;
        respond 200 (JsonVideo video)
    end).

Definition get_videos_comments (id : Param) : M Outcome :=
  comments <- Comment_findAll_where_videoId id ;;
  respond 200 (JsonComments comments).

Definition post_videos_comments (authorization : option string)
    (id : Param) (text : Field) : M Outcome :=
  authMiddleware now authorization (fun user =>
    comment <- Comment_create now id (payload_id user) (column text) now ;;
    respond 200 (JsonComment comment)).

(** [res.send({ user, videos })], [user] possibly [null]. *)
Definition get_profile (userId : Param) : M Outcome :=
  user <- User_findByPk userId ;;
  videos <- Video_findAll_where_userId userId ;;
  respond 200 (JsonProfile user videos).

Definition post_duets (authorization : option string)
    (file : option Upload) (caption : Field) : M Outcome :=
  authMiddleware now authorization (fun user =>
    upload_single file (fun file =>
      url <- file_url file ;;
      video <- Video_create now url (Some (JS.concat caption " (Duet)"))
                 (payload_id user) now 0%float ;;
      respond 200 (JsonVideo video))).

(** Without a catch-all, Express answers 404 itself. *)
Definition no_route : M Outcome := respond 404 NotFoundPage.

Definition handle (r : Request) : Store -> Store * Outcome :=
  route match r with
  | OPTIONS => cors_preflight
  | MALFORMED_JSON => express_error 400
  | GET_videos => static_mount get_videos
  | GET_videos_slash => static_index get_videos
  | GET_videos_file name => static_file name no_route
  | GET_recommended => get_recommended
  | POST_register e p n => post_register e p n
  | POST_login e p => post_login e p
  | POST_videos a f c => post_videos a f c
  | POST_videos_like a i => post_videos_like a i
  | GET_videos_comments i => get_videos_comments i
  | POST_videos_comments a i t => post_videos_comments a i t
  | GET_profile u => get_profile u
  | POST_duets a f c => post_duets a f c
  | UNMATCHED => no_route
  end.
End Routes.

Inductive reachable `{Bcrypt} `{Jwt} `{Env} `{Path} `{Fs} `{Postgres}
    : Store -> Prop :=
| reach_initial d : reachable (initial_store d)
| reach_handle now r s : reachable s -> reachable (fst (handle now r s)).
End Part000.

(** ** The writes of the routes *)

(** The row that a like stores, and the state it leaves: the rows with
    the key of the video take the liked values and the clock reading as
    [updatedAt]. *)
Definition liked_row (now : Z) (v : Video.t) : Video.t :=
  Video.set_updatedAt now (like v).

Definition liked (now : Z) (v : Video.t) (s : Store) : Store :=
  set_videos
    (map (fun w => if Video.id w =? Video.id v then liked_row now v else w)
         (videos s))
    s.

(** The changes of the tables that a request can make: none; a new user
    with the next key and an email that no stored user has; a new video
    with the next key, of a stored user or of none, with its counters and
    score at 0; a like of a stored video below the bound of INTEGER; a new
    comment with the next key, on a stored video, of a stored user or of
    none. *)
Inductive write (s s' : Store) : Prop :=
| wr_none :
    users s' = users s -> videos s' = videos s -> comments s' = comments s ->
    write s s'
| wr_user u :
    users s' = (users s ++ [u])%list ->
    videos s' = videos s -> comments s' = comments s ->
    User.id u = users_seq s + 1 -> users_seq s' = users_seq s + 1 ->
    has_user (User.id u) s = false ->
    email_taken (User.email u) (users s) = false ->
    write s s'
| wr_video v :
    users s' = users s ->
    videos s' = (videos s ++ [v])%list ->
    comments s' = comments s ->
    Video.id v = videos_seq s + 1 -> videos_seq s' = videos_seq s + 1 ->
    has_video (Video.id v) s = false ->
    user_ref_ok (Video.userId v) s = true ->
    Video.likes v = 0 -> Video.views v = 0 ->
    Video.recommendationsScore v = 0%float ->
    write s s'
| wr_like now v :
    users s' = users s ->
    videos s' = videos (liked now v s) ->
    comments s' = comments s ->
    In v (videos s) ->
    int4 (Video.likes v + 1) = true ->
    write s s'
| wr_comment c :
    users s' = users s -> videos s' = videos s ->
    comments s' = (comments s ++ [c])%list ->
    Comment.id c = comments_seq s + 1 ->
    comments_seq s' = comments_seq s + 1 ->
    has_comment (Comment.id c) s = false ->
    has_video (Comment.videoId c) s = true ->
    user_ref_ok (Comment.userId c) s = true ->
    write s s'.

(** A request makes one of these changes, and the sequences only
    advance. *)
Definition effect (s s' : Store) : Prop :=
  write s s'
  /\ users_seq s <= users_seq s'
  /\ videos_seq s <= videos_seq s'
  /\ comments_seq s <= comments_seq s'.

(** The invariants of the database. *)

(** Primary keys: the rows of a table have distinct keys, which the
    sequence has handed out. *)
Definition keys_ok (ids : list Z) (last : Z) : Prop :=
  NoDup ids /\ 0 <= last /\ Forall (fun i => 1 <= i <= last) ids.

Definition keys_inv (s : Store) : Prop :=
  keys_ok (map User.id (users s)) (users_seq s)
  /\ keys_ok (map Video.id (videos s)) (videos_seq s)
  /\ keys_ok (map Comment.id (comments s)) (comments_seq s).

(** No views, likes within INTEGER, and the score is the like count. *)
Definition video_unviewed (v : Video.t) : Prop :=
  Video.views v = 0
  /\ 0 <= Video.likes v <= 2147483647
  /\ Video.recommendationsScore v = JS.js_number (Video.likes v).

Definition views_inv (s : Store) : Prop := Forall video_unviewed (videos s).

(** Every comment is on a stored video, and by a stored user or by
    none. *)
Definition comment_refs_ok (s : Store) (c : Comment.t) : Prop :=
  has_video (Comment.videoId c) s = true
  /\ user_ref_ok (Comment.userId c) s = true.

Definition refs_inv (s : Store) : Prop := Forall (comment_refs_ok s) (comments s).

(** The emails that users have are distinct ([unique: true], line 24). *)
Fixpoint emails (us : list User.t) : list string :=
  match us with
  | [] => []
  | u :: us' =>
      match User.email u with
      | Some e => e :: emails us'
      | None => emails us'
      end
  end.

Definition emails_inv (s : Store) : Prop := NoDup (emails (users s)).

(** Every video is owned by a stored user or by none (the foreign key of
    line 49). *)
Definition owners_inv (s : Store) : Prop :=
  Forall (fun v => user_ref_ok (Video.userId v) s = true) (videos s).

(** What holds of every reachable state. *)
Definition schema_inv (s : Store) : Prop :=
  keys_inv s /\ views_inv s /\ refs_inv s /\ owners_inv s /\ emails_inv s.

(** ** Two readings to compare the code with *)

(** The auth gate as "strips the prefix only if present and otherwise
    verifies the raw header value" words it. *)
Definition prefix_stripped (authorization : option string) : option string :=
  option_map (fun h => if String.prefix "Bearer " h then JS.drop 7 h else h)
             authorization.

(** The references of the comments as "every Comment.videoId must
    reference an existing Video and Comment.userId an existing User" words
    them. *)
Definition comment_refs_as_worded (s : Store) : Prop :=
  Forall (fun c => has_video (Comment.videoId c) s = true
                   /\ exists u, Comment.userId c = Some u
                                /\ has_user u s = true)
         (comments s).

(** The exact value of a number: [exactly x p q] when the binary64 value
    [x] is the fraction [p/q] ([q] positive). *)
Definition exactly (x : float) (p q : Z) : bool :=
  match Prim2SF x with
  | S754_zero _ => p =? 0
  | S754_finite sign m e =>
      let n := if sign then Z.neg m else Z.pos m in
      if 0 <=? e then n * 2 ^ e * q =? p else n * q =? p * 2 ^ (- e)
  | _ => false
  end.

(** ** More of the requests *)

(** The same request [n] times in a row. *)
Fixpoint repeated (handle : Request -> Store -> Store * Outcome) (n : nat)
    (r : Request) (s : Store) : Store :=
  match n with
  | O => s
  | S n' => repeated handle n' r (fst (handle r s))
  end.

(** The status of the response, if there is one. *)
Definition status_of (o : Outcome) : option Z :=
  match o with
  | Responded r => Some (status r)
  | Rejected _ => None
  end.

(** A response that reports a caught exception: status 500 with a JSON
    error of the route. *)
Definition caught (o : Outcome) : bool :=
  match o with
  | Responded (mkResponse 500 (JsonError _)) => true
  | _ => false
  end.

(** ** A small instance of the libraries, to run the routes on examples

    The hash of a password is the password after a fixed salt; a token is
    the secret, a dot and the user id in unary (or a dash, for a payload
    without id), and never expires; the database meets the rows in
    insertion order. *)

Module Demo.

Fixpoint unary (n : nat) : string :=
  match n with
  | O => EmptyString
  | S n' => String "i" (unary n')
  end.

Fixpoint read_unary (s : string) : option nat :=
  match s with
  | EmptyString => Some O
  | String c s' =>
      if Ascii.eqb c "i" then option_map S (read_unary s') else None
  end.

Definition sign (id : Z) (secret : string) (now : Z) : string :=
  secret ++ "." ++ unary (Z.to_nat id).

Definition verify (token secret : string) (now : Z) : option Payload :=
  let signed := secret ++ "." in
  if String.prefix signed token
  then
    let rest := JS.drop (String.length signed) token in
    if String.eqb rest "-" then Some (mkPayload None)
    else option_map (fun n => mkPayload (Some (Integer (Z.of_nat n))))
                    (read_unary rest)
  else None.

#[global] Instance bcrypt : Bcrypt := {|
  bcrypt_hash p _ := "$2a$10$" ++ p;
  bcrypt_compare p h := String.eqb ("$2a$10$" ++ p) h
|}.

#[global] Instance jwt : Jwt := {|
  jwt_sign := sign;
  jwt_verify := verify
|}.

#[global] Instance env : Env := {| JWT_SECRET := None |}.

(** The extension of a plain file name: from its last dot on, unless the
    name has no dot or only a leading one. *)
Fixpoint from_last_dot (s : string) : option string :=
  match s with
  | EmptyString => None
  | String c s' =>
      match from_last_dot s' with
      | Some e => Some e
      | None => if Ascii.eqb c "." then Some s else None
      end
  end.

Definition extname (s : string) : string :=
  match s with
  | EmptyString => EmptyString
  | String _ s' =>
      match from_last_dot s' with
      | Some e => e
      | None => EmptyString
      end
  end.

#[global] Instance path : Path := {| path_extname := extname |}.

#[global] Instance fs : Fs := {|
  fs_accepts name := (String.length name <=? 255)%nat
|}.

#[global] Instance postgres : Postgres := {|
  users_scan _ l := l;
  users_scan_perm _ l := Permutation_refl l;
  videos_scan _ l := l;
  videos_scan_perm _ l := Permutation_refl l;
  comments_scan _ l := l;
  comments_scan_perm _ l := Permutation_refl l;
  refusal_costs_key why :=
    match why with TooLong => true | NotAnInteger => false end
|}.

(** A user, her clip and a comment on it, as three requests leave them
    (at the clock reading 1000, in an empty directory). *)
Definition bearer1 : option string := Some "Bearer secret.i".
Definition register1 : Request :=
  POST_register (Str "a@x.com") (Str "p") (Str "a").
Definition upload1 : Request :=
  POST_videos bearer1 (Some (mkUpload "clip.mp4" 1000)) (Str "hi").
Definition comment1 : Request :=
  POST_videos_comments bearer1 (Integer 1) (Str "nice").

Definition alice : User.t :=
  User.mk 1 (Some "a@x.com") "$2a$10$p" (Some "a") [] [] 1000 1000.
Definition clip : Video.t :=
  Video.mk 1 "/videos/1000.mp4" (Some "hi") (Some 1) 0 0 1000 0%float
           1000 1000.
Definition note : Comment.t :=
  Comment.mk 1 1 (Some 1) (Some "nice") 1000 1000 1000.
Definition store1 : Store :=
  mkStore [alice] [clip] [note] 1 1 1 (Some ["1000.mp4"]).

(** The clip after [n] likes (at the clock reading 1000), and the state
    with it. *)
Definition clip_liked (n : Z) : Video.t :=
  Video.mk 1 "/videos/1000.mp4" (Some "hi") (Some 1) n 0 1000
           (JS.js_number n) 1000 1000.
Definition store_liked (n : Z) : Store :=
  mkStore [alice] [clip_liked n] [note] 1 1 1 (Some ["1000.mp4"]).

(** A token whose payload has no [id], signed with the fallback secret. *)
Definition bearer_anonymous : option string := Some "Bearer secret.-".

(** Runs the requests in turn (all at the clock reading [now]) and
    collects the outcomes. *)
Fixpoint run (handle : Z -> Request -> Store -> Store * Outcome) (now : Z)
    (rs : list Request) (s : Store) : Store * list Outcome :=
  match rs with
  | [] => (s, [])
  | r :: rs' =>
      let (s1, o) := handle now r s in
      let (s2, os) := run handle now rs' s1 in
      (s2, o :: os)
  end.

End Demo.

(** * Properties *)

Unset Implicit Arguments.

(** ** Binary64 facts *)

Lemma Prim2SF_zero : Prim2SF 0%float = S754_zero false.
Proof. reflexivity. Qed.

Lemma binary_normalize_not_neg_zero m e :
  0 <= m -> binary_normalize prec emax m e false <> S754_zero true.
Proof.
  intros Hm. unfold binary_normalize.
  destruct m as [|p|p]; [discriminate| |lia].
  unfold binary_round. destruct (shl_align p e _) as [mz ez].
  unfold binary_round_aux.
  destruct (shr_fexp prec emax (Z.pos mz) ez loc_Exact) as [mrs' e'].
  destruct (shr_fexp prec emax _ e' loc_Exact) as [mrs'' e''].
  destruct (shr_m mrs''); try discriminate.
  destruct (e'' <=? emax - prec); discriminate.
Qed.

Lemma SFadd_zero_r x : x <> S754_zero true -> SF64add x (S754_zero false) = x.
Proof. destruct x as [[]| | |]; simpl; congruence. Qed.

Lemma of_uint63_add_zero n : (of_uint63 n + 0)%float = of_uint63 n.
Proof.
  apply Prim2SF_inj. rewrite FloatAxioms.add_spec, Prim2SF_zero.
  apply SFadd_zero_r. rewrite of_uint63_spec.
  apply binary_normalize_not_neg_zero. apply Uint63.to_Z_bounded.
Qed.

(** With no views the score is the like count. *)
Lemma spec_score_no_views z : 0 <= z -> spec_score z 0 = JS.js_number z.
Proof.
  intros Hz. unfold spec_score.
  replace (JS.js_number 0 / 10)%float with 0%float by reflexivity.
  unfold JS.js_number. destruct z; try lia; apply of_uint63_add_zero.
Qed.

Lemma is_nan_Prim2SF x : is_nan x = false -> Prim2SF x <> S754_nan.
Proof.
  unfold is_nan. rewrite FloatAxioms.eqb_spec. intros E C.
  rewrite C in E. discriminate.
Qed.

Lemma SFleb_total a b :
  a <> S754_nan -> b <> S754_nan -> SFleb a b = false -> SFleb b a = true.
Proof.
  unfold SFleb.
  destruct a as [sa|sa| |sa ma ea], b as [sb|sb| |sb mb eb];
    simpl; try congruence; intros _ _;
    try (destruct sa; try destruct sb; congruence);
    try (destruct sb; congruence).
  change (PosDef.Pos.compare_cont Eq mb ma) with (mb ?= ma)%positive.
  change (PosDef.Pos.compare_cont Eq ma mb) with (ma ?= mb)%positive.
  rewrite (Z.compare_antisym ea eb), (Pos.compare_antisym ma mb).
  destruct sa, sb; try congruence;
    destruct (ea ?= eb); simpl; try congruence;
    destruct (ma ?= mb)%positive; simpl; congruence.
Qed.

Lemma SFleb_trans a b c :
  SFleb a b = true -> SFleb b c = true -> SFleb a c = true.
Proof.
  unfold SFleb.
  destruct a as [sa|sa| |sa ma ea], b as [sb|sb| |sb mb eb],
           c as [sc|sc| |sc mc ec]; simpl; try congruence;
    try (destruct sa; try destruct sb; try destruct sc; simpl; congruence);
    try (destruct sb; try destruct sc; simpl; congruence);
    try (destruct sa; try destruct sc; simpl; congruence).
  all: change (PosDef.Pos.compare_cont Eq ?x ?y) with (x ?= y)%positive.
  all: destruct sa, sb, sc; simpl; try congruence.
  all: destruct (Z.compare_spec ea eb), (Z.compare_spec eb ec),
         (Z.compare_spec ea ec); try lia; simpl; try congruence.
  all: destruct (Pos.compare_spec ma mb), (Pos.compare_spec mb mc),
         (Pos.compare_spec ma mc); try lia; simpl; try congruence.
Qed.

Lemma float8_le_total x y : float8_le x y = false -> float8_le y x = true.
Proof.
  unfold float8_le. destruct (is_nan y) eqn:Ny; [discriminate|].
  destruct (is_nan x) eqn:Nx; [reflexivity|].
  rewrite !FloatAxioms.leb_spec. apply SFleb_total; now apply is_nan_Prim2SF.
Qed.

Lemma float8_le_trans x y z :
  float8_le x y = true -> float8_le y z = true -> float8_le x z = true.
Proof.
  unfold float8_le. destruct (is_nan z) eqn:Nz; [reflexivity|].
  destruct (is_nan y) eqn:Ny; [discriminate|].
  destruct (is_nan x) eqn:Nx; [discriminate|].
  rewrite !FloatAxioms.leb_spec. apply SFleb_trans.
Qed.

(** ** The number of an integer is exact *)

Lemma digits2_iter_xO m k :
  digits2_pos (Pos.iter xO m k) = (digits2_pos m + k)%positive.
Proof.
  induction k as [|k IH] using Pos.peano_ind.
  - simpl. lia.
  - rewrite Pos.iter_succ. simpl. rewrite IH. lia.
Qed.

Lemma iter_xO_value m k : Z.pos (Pos.iter xO m k) = Z.pos m * 2 ^ Z.pos k.
Proof.
  induction k as [|k IH] using Pos.peano_ind.
  - simpl. lia.
  - rewrite Pos.iter_succ, Pos2Z.inj_xO, IH, Pos2Z.inj_succ.
    rewrite Z.pow_succ_r by lia. lia.
Qed.

Lemma digits2_lower m : 2 ^ (Z.pos (digits2_pos m) - 1) <= Z.pos m.
Proof.
  induction m as [m IH|m IH|]; simpl digits2_pos.
  - rewrite Pos2Z.inj_succ.
    replace (Z.succ (Z.pos (digits2_pos m)) - 1)
      with (Z.succ (Z.pos (digits2_pos m) - 1)) by lia.
    rewrite Z.pow_succ_r by lia. lia.
  - rewrite Pos2Z.inj_succ.
    replace (Z.succ (Z.pos (digits2_pos m)) - 1)
      with (Z.succ (Z.pos (digits2_pos m) - 1)) by lia.
    rewrite Z.pow_succ_r by lia. lia.
  - simpl. lia.
Qed.

Lemma digits2_small m : Z.pos m < 2 ^ 53 -> Z.pos (digits2_pos m) <= 53.
Proof.
  intros Hm.
  destruct (Z_le_gt_dec (Z.pos (digits2_pos m)) 53) as [|Hd]; [assumption|].
  exfalso. pose proof (digits2_lower m) as Hl.
  assert (2 ^ 53 <= 2 ^ (Z.pos (digits2_pos m) - 1))
    by (apply Z.pow_le_mono_r; lia).
  lia.
Qed.

Lemma shr_fexp_53 mz ez :
  Z.pos (digits2_pos mz) = 53 -> -52 <= ez <= 0 ->
  shr_fexp prec emax (Z.pos mz) ez loc_Exact
  = ({| shr_m := Z.pos mz; shr_r := false; shr_s := false |}, ez).
Proof.
  intros Hd He. unfold shr_fexp, fexp, SpecFloat.emin, prec, emax.
  change (Zdigits2 (Z.pos mz)) with (Z.pos (digits2_pos mz)). rewrite Hd.
  replace (Z.max (53 + ez - 53) (3 - 1024 - 53) - ez) with 0
    by (rewrite Z.max_l; lia).
  reflexivity.
Qed.

Lemma round_aux_exact mz ez :
  Z.pos (digits2_pos mz) = 53 -> -52 <= ez <= 0 ->
  binary_round_aux prec emax false (Z.pos mz) ez loc_Exact
  = S754_finite false mz ez.
Proof.
  intros Hd He. unfold binary_round_aux.
  rewrite (shr_fexp_53 mz ez Hd He).
  cbn [shr_m loc_of_shr_record round_nearest_even].
  rewrite (shr_fexp_53 mz ez Hd He). cbn [shr_m].
  unfold prec, emax.
  replace (ez <=? 1024 - 53) with true by (symmetry; apply Z.leb_le; lia).
  reflexivity.
Qed.

Lemma binary_round_integer m :
  Z.pos m < 2 ^ 53 ->
  exists mz ez,
    binary_round prec emax false m 0 = S754_finite false mz ez
    /\ -52 <= ez <= 0
    /\ Z.pos mz = Z.pos m * 2 ^ (- ez).
Proof.
  intros Hm. pose proof (digits2_small m Hm) as Hd.
  unfold binary_round, fexp, SpecFloat.emin, prec, emax.
  replace (Z.max (Z.pos (digits2_pos m) + 0 - 53) (3 - 1024 - 53))
    with (Z.pos (digits2_pos m) - 53) by (rewrite Z.max_l; lia).
  unfold shl_align.
  destruct (Z.pos (digits2_pos m) - 53 - 0) as [|p|p] eqn:E; try lia.
  - exists m, 0. split; [|split; [lia|simpl; lia]].
    apply round_aux_exact; lia.
  - exists (Pos.iter xO m p), (Z.pos (digits2_pos m) - 53).
    split; [|split; [lia|]].
    + apply round_aux_exact; [|lia]. rewrite digits2_iter_xO. lia.
    + rewrite iter_xO_value. f_equal. f_equal. lia.
Qed.

Lemma js_number_exact z :
  0 <= z < 2 ^ 53 -> exactly (JS.js_number z) z 1 = true.
Proof.
  intros Hz. unfold exactly, JS.js_number.
  destruct z as [|m|m]; [reflexivity| |lia].
  rewrite of_uint63_spec, Uint63.of_Z_spec.
  rewrite Z.mod_small
    by (split; [lia|]; apply Z.lt_trans with (2 ^ 53); [lia|reflexivity]).
  unfold binary_normalize.
  destruct (binary_round_integer m (proj2 Hz)) as (mz & ez & -> & He & Hv).
  destruct (0 <=? ez) eqn:E.
  - apply Z.leb_le in E. assert (ez = 0) by lia. subst ez.
    simpl in Hv. apply Z.eqb_eq. simpl. lia.
  - apply Z.eqb_eq. lia.
Qed.

(** ** ORDER BY sorts and permutes *)

Section OrderByFacts.
Variable A : Type.
Variable precedes : A -> A -> bool.
Hypothesis precedes_total :
  forall a b, precedes a b = false -> precedes b a = true.
Hypothesis precedes_trans :
  forall a b c, precedes a b = true -> precedes b c = true ->
                precedes a c = true.

Let R (a b : A) : Prop := precedes a b = true.

Lemma insert_row_perm x l : Permutation (insert_row precedes x l) (x :: l).
Proof.
  induction l as [|y l IH]; simpl; [reflexivity|].
  destruct (precedes x y); [reflexivity|].
  rewrite IH. apply perm_swap.
Qed.

Lemma order_by_perm l : Permutation (order_by precedes l) l.
Proof.
  induction l as [|x l IH]; simpl; [reflexivity|].
  rewrite insert_row_perm. now constructor.
Qed.

Lemma insert_row_sorted x l :
  StronglySorted R l -> StronglySorted R (insert_row precedes x l).
Proof.
  induction 1 as [|y l Hl IH Hy]; simpl.
  - repeat constructor.
  - destruct (precedes x y) eqn:E.
    + constructor; [now constructor|].
      constructor; [exact E|].
      eapply Forall_impl; [|exact Hy].
      intros z Hz. eapply precedes_trans; eassumption.
    + constructor; [exact IH|].
      eapply Permutation_Forall;
        [symmetry; apply insert_row_perm|].
      constructor; [now apply precedes_total|exact Hy].
Qed.

Lemma order_by_sorted l : StronglySorted R (order_by precedes l).
Proof.
  induction l as [|x l IH]; simpl; [constructor|].
  now apply insert_row_sorted.
Qed.

Lemma firstn_sorted n l :
  StronglySorted R l -> StronglySorted R (firstn n l).
Proof.
  intros Hl. revert n.
  induction Hl as [|y l Hl IH Hy]; intros [|n]; simpl; try constructor.
  - apply IH.
  - apply Forall_forall. intros z Hz.
    rewrite Forall_forall in Hy. apply Hy.
    rewrite <- (firstn_skipn n l). apply in_or_app. now left.
Qed.
End OrderByFacts.

(** ** The auth gate *)

Section AuthFacts.
Context `{Jwt} `{Env}.

Lemma authMiddleware_next now a u next :
  decoded now a = Some u -> authMiddleware now a next = next u.
Proof.
  unfold decoded, authMiddleware.
  destruct (bearer_token a) as [token|]; [|discriminate].
  destruct (JS.truthy token); simpl; [|discriminate].
  now intros ->.
Qed.

Lemma authMiddleware_401 now a next :
  decoded now a = None ->
  exists msg, authMiddleware now a next = respond 401 (Text msg).
Proof.
  unfold decoded, authMiddleware.
  destruct (bearer_token a) as [token|]; [|now exists "No token"].
  destruct (JS.truthy token); simpl; [|now exists "No token"].
  intros ->. now exists "Invalid token".
Qed.
End AuthFacts.

(** ** Every request makes one of the writes of [effect] *)

Ltac through_auth now a :=
  let Ha := fresh "Ha" in
  destruct (decoded now a) eqn:Ha;
  [ rewrite !(authMiddleware_next _ _ _ _ Ha)
  | repeat match goal with
    | |- context [authMiddleware now a ?next] =>
        let msg := fresh "msg" in
        destruct (authMiddleware_401 now a next Ha) as [msg ->]
    end ].

Ltac run_body :=
  unfold try_catch, bind, respond, ret, throw, file_url, express_error,
    cors_preflight, static_mount, static_index, static_file, upload_single,
    bcrypt_hash_js, bcrypt_compare_js,
    User_create, User_findOne, User_findByPk,
    Video_create, Video_findByPk, Video_save,
    Video_findAll_by_timestamp, Video_findAll_by_recommendationsScore,
    Video_findAll_where_userId, Comment_create, Comment_findAll_where_videoId,
    refused_users, refused_videos, refused_comments;
  simpl.

Ltac split_match :=
  match goal with
  | |- context [match ?x with _ => _ end] =>
      lazymatch x with
      | context [match _ with _ => _ end] => fail
      | _ => destruct x eqn:?; simpl
      end
  end.

Lemma find_video_id i v l :
  find (fun w => Video.id w =? i) l = Some v -> Video.id v = i.
Proof. intros E. apply find_some in E. now apply Z.eqb_eq. Qed.

Ltac bool_hyps :=
  repeat match goal with
  | H : negb _ = false |- _ => apply negb_false_iff in H
  | H : negb _ = true |- _ => apply negb_true_iff in H
  | H : _ || _ = false |- _ => apply orb_false_iff in H; destruct H
  | H : _ && _ = true |- _ => apply andb_true_iff in H; destruct H
  end.

Ltac unfold_server :=
  unfold Server.handle, route, Server.get_videos, Server.get_recommended,
    Server.post_register, Server.post_login, Server.post_videos,
    Server.post_videos_like, Server.get_videos_comments,
    Server.post_videos_comments, Server.get_profile, Server.post_duets,
    Server.route_not_found.

Ltac unfold_part000 :=
  unfold Part000.handle, route, Part000.get_videos, Part000.get_recommended,
    Part000.post_register, Part000.post_login, Part000.post_videos,
    Part000.post_videos_like, Part000.get_videos_comments,
    Part000.post_videos_comments, Part000.get_profile, Part000.post_duets,
    Part000.no_route.

Section Effects.
Context `{Bcrypt} `{Jwt} `{Env} `{Path} `{Fs} `{Postgres}.

Lemma server_handle_effect now r s : effect s (fst (Server.handle now r s)).
Proof.
  destruct r as [ | | | |name| |e p n|e p|a f c|a i|i|a i t|u|a f c| ];
    unfold_server; try through_auth now a; run_body; repeat split_match;
    try (split; [apply wr_none; reflexivity|simpl; lia]);
    bool_hyps; (split; [|simpl; lia]).
  - eapply wr_user; simpl; eauto.
  - eapply wr_video; simpl; eauto.
  - match goal with
    | E : find _ (videos s) = Some ?v |- _ =>
        apply find_some in E; destruct E as [Hin _];
        apply (wr_like s _ now v); auto
    end.
  - eapply wr_comment; simpl; eauto.
  - eapply wr_video; simpl; eauto.
Qed.

(** The two files leave the same state. *)
Lemma part000_store_as_server now r s :
  fst (Part000.handle now r s) = fst (Server.handle now r s).
Proof.
  destruct r as [ | | | |name| |e p n|e p|a f c|a i|i|a i t|u|a f c| ];
    unfold_server; unfold_part000; try through_auth now a; run_body;
    repeat split_match; reflexivity.
Qed.

Lemma part000_handle_effect now r s : effect s (fst (Part000.handle now r s)).
Proof. rewrite part000_store_as_server. apply server_handle_effect. Qed.
End Effects.

(** ** The writes keep the invariants *)

Lemma keys_ok_mono ids a b : keys_ok ids a -> a <= b -> keys_ok ids b.
Proof.
  intros (Hnd & H0 & Hr) Hab. split; [exact Hnd|split; [lia|]].
  eapply Forall_impl; [|exact Hr]. simpl. intros; lia.
Qed.

Lemma keys_ok_snoc ids a :
  keys_ok ids a -> keys_ok (ids ++ [a + 1]) (a + 1).
Proof.
  intros (Hnd & H0 & Hr). rewrite Forall_forall in Hr.
  split; [|split; [lia|]].
  - apply NoDup_app; [exact Hnd|repeat constructor; intros []|].
    intros i Hi [<-|[]]. apply Hr in Hi. lia.
  - apply Forall_forall. intros i Hi.
    apply in_app_or in Hi. destruct Hi as [Hi|[<-|[]]]; [apply Hr in Hi|]; lia.
Qed.

Lemma liked_ids now v l :
  map Video.id
      (map (fun w => if Video.id w =? Video.id v then liked_row now v else w) l)
  = map Video.id l.
Proof.
  rewrite map_map. apply map_ext. intros w.
  destruct (Video.id w =? Video.id v) eqn:E; [|reflexivity].
  apply Z.eqb_eq in E. simpl. congruence.
Qed.

Lemma effect_keys s s' : effect s s' -> keys_inv s -> keys_inv s'.
Proof.
  intros (Hw & Hsu & Hsv & Hsc) (Hu & Hv & Hc). unfold keys_inv.
  destruct Hw as [Eu Ev Ec|u Eu Ev Ec Hid Hseq _ _
                 |v Eu Ev Ec Hid Hseq _ _ _ _ _
                 |now v Eu Ev Ec _ _
                 |c Eu Ev Ec Hid Hseq _ _ _];
    rewrite Eu, Ev, Ec; rewrite ?map_app; simpl;
    (split; [|split]); eauto using keys_ok_mono.
  - rewrite Hid, Hseq. now apply keys_ok_snoc.
  - rewrite Hid, Hseq. now apply keys_ok_snoc.
  - rewrite liked_ids. eauto using keys_ok_mono.
  - rewrite Hid, Hseq. now apply keys_ok_snoc.
Qed.

Lemma like_unviewed v :
  int4 (Video.likes v + 1) = true ->
  video_unviewed v -> video_unviewed (like v).
Proof.
  intros Hb (Hviews & Hlikes & _). unfold video_unviewed, like; simpl.
  unfold int4 in Hb. apply andb_true_iff in Hb. destruct Hb as [_ Hb].
  apply Z.leb_le in Hb.
  repeat split; [exact Hviews|lia|lia|].
  rewrite Hviews. apply spec_score_no_views. lia.
Qed.

Lemma effect_views s s' : effect s s' -> views_inv s -> views_inv s'.
Proof.
  unfold views_inv. intros (Hw & _) Hs.
  destruct Hw as [_ Ev _|u _ Ev _ _ _ _ _
                 |v _ Ev _ _ _ _ _ Hl Hvw Hsc
                 |now v _ Ev _ Hin Hb
                 |c _ Ev _ _ _ _ _ _];
    rewrite Ev; auto.
  - apply Forall_app. split; [exact Hs|].
    repeat constructor; [exact Hvw|lia|lia|]. now rewrite Hsc, Hl.
  - pose proof (proj1 (Forall_forall _ _) Hs v Hin) as Hv.
    simpl. apply Forall_map. eapply Forall_impl; [|exact Hs].
    intros w Hw. destruct (Video.id w =? Video.id v); [|exact Hw].
    apply (like_unviewed v Hb) in Hv. exact Hv.
Qed.

Lemma existsb_app_l {A} (f : A -> bool) l l' :
  existsb f l = true -> existsb f (l ++ l') = true.
Proof. intros E. rewrite existsb_app, E. reflexivity. Qed.

Lemma effect_has_user s s' i :
  effect s s' -> has_user i s = true -> has_user i s' = true.
Proof.
  unfold has_user. intros ([Eu _ _|u Eu _ _ _ _ _ _|? Eu|? ? Eu|? Eu] & _);
    rewrite Eu; auto using existsb_app_l.
Qed.

Lemma effect_has_video s s' i :
  effect s s' -> has_video i s = true -> has_video i s' = true.
Proof.
  unfold has_video.
  intros ([_ Ev _|u _ Ev|v _ Ev|now v _ Ev _ Hin _|c _ Ev] & _);
    rewrite Ev; auto using existsb_app_l.
  simpl. intros E. apply existsb_exists in E. destruct E as (w & Hw & Hi).
  apply existsb_exists.
  exists (if Video.id w =? Video.id v then liked_row now v else w). split.
  - apply in_map_iff. now exists w.
  - destruct (Video.id w =? Video.id v) eqn:Ej; [|exact Hi].
    apply Z.eqb_eq in Ej. simpl. congruence.
Qed.

Lemma effect_user_ref s s' o :
  effect s s' -> user_ref_ok o s = true -> user_ref_ok o s' = true.
Proof. destruct o; simpl; [apply effect_has_user|reflexivity]. Qed.

Lemma effect_refs s s' : effect s s' -> refs_inv s -> refs_inv s'.
Proof.
  intros He Hs. unfold refs_inv in *.
  assert (Hold : Forall (comment_refs_ok s') (comments s)).
  { eapply Forall_impl; [|exact Hs]. intros c [Hv Hu].
    split; [eapply effect_has_video|eapply effect_user_ref]; eassumption. }
  destruct He as (Hw & Hseq).
  assert (He : effect s s') by (split; assumption).
  destruct Hw as [_ _ Ec|u _ _ Ec|v _ _ Ec|now v _ _ Ec
                 |c _ _ Ec _ _ _ Hv Hu]; rewrite Ec; try exact Hold.
  apply Forall_app. split; [exact Hold|].
  repeat constructor;
    [eapply effect_has_video|eapply effect_user_ref]; eassumption.
Qed.

Lemma effect_owners s s' : effect s s' -> owners_inv s -> owners_inv s'.
Proof.
  intros He Hs. unfold owners_inv in *.
  assert (Hold : Forall (fun v => user_ref_ok (Video.userId v) s' = true)
                        (videos s)).
  { eapply Forall_impl; [|exact Hs]. intros v Hv.
    eapply effect_user_ref; eassumption. }
  destruct He as (Hw & Hseq).
  assert (He : effect s s') by (split; assumption).
  destruct Hw as [_ Ev _|u _ Ev|v _ Ev _ _ _ _ Hu
                 |now v _ Ev _ Hin _|c _ Ev]; rewrite Ev; try exact Hold.
  - apply Forall_app. split; [exact Hold|].
    repeat constructor. eapply effect_user_ref; eassumption.
  - simpl. apply Forall_map.
    pose proof (proj1 (Forall_forall _ _) Hold v Hin) as Hv.
    eapply Forall_impl; [|exact Hold].
    intros w Hw. destruct (Video.id w =? Video.id v); [exact Hv|exact Hw].
Qed.

Lemma emails_app us vs : emails (us ++ vs) = (emails us ++ emails vs)%list.
Proof.
  induction us as [|u us IH]; simpl; [reflexivity|].
  destruct (User.email u); simpl; now rewrite IH.
Qed.

Lemma email_taken_in e us :
  email_taken (Some e) us = false -> ~ In e (emails us).
Proof.
  simpl. induction us as [|u us IH]; simpl; [tauto|].
  unfold has_email at 1. destruct (User.email u) as [x|]; simpl.
  - destruct (String.eqb x e) eqn:E; [discriminate|].
    apply String.eqb_neq in E. intros Hn [->|Hin]; [congruence|now apply IH].
  - exact IH.
Qed.

Lemma effect_emails s s' : effect s s' -> emails_inv s -> emails_inv s'.
Proof.
  unfold emails_inv.
  intros ([Eu _ _|u Eu _ _ _ _ _ Hf|? Eu|? ? Eu|? Eu] & _);
    rewrite Eu; auto.
  intros Hs. rewrite emails_app. simpl.
  destruct (User.email u) as [e|]; [|now rewrite app_nil_r].
  apply NoDup_app; [exact Hs|repeat constructor; intros []|].
  intros x Hx [<-|[]]. revert Hx. now apply email_taken_in.
Qed.

Lemma effect_schema s s' : effect s s' -> schema_inv s -> schema_inv s'.
Proof.
  intros He (Hk & Hv & Hr & Ho & He').
  split; [|split; [|split; [|split]]];
    [eapply effect_keys|eapply effect_views|eapply effect_refs
    |eapply effect_owners|eapply effect_emails]; eassumption.
Qed.

Lemma initial_schema d : schema_inv (initial_store d).
Proof.
  unfold schema_inv, keys_inv, keys_ok, views_inv, refs_inv, owners_inv,
    emails_inv; simpl.
  repeat split; try constructor; lia.
Qed.

Section Reachable.
Context `{Bcrypt} `{Jwt} `{Env} `{Path} `{Fs} `{Postgres}.

Lemma server_reachable_inv s : Server.reachable s -> schema_inv s.
Proof.
  induction 1 as [d|now r s _ IH]; [apply initial_schema|].
  eapply effect_schema; [apply server_handle_effect|exact IH].
Qed.

Lemma part000_reachable_inv s : Part000.reachable s -> schema_inv s.
Proof.
  induction 1 as [d|now r s _ IH]; [apply initial_schema|].
  eapply effect_schema; [apply part000_handle_effect|exact IH].
Qed.
End Reachable.

(** ** The like route *)

Lemma find_liked now k v l :
  find (fun w => Video.id w =? k) l = Some v ->
  find (fun w => Video.id w =? k)
       (map (fun w => if Video.id w =? Video.id v then liked_row now v else w) l)
  = Some (liked_row now v).
Proof.
  intros Hf. pose proof (find_video_id _ _ _ Hf) as Hk. subst k.
  induction l as [|w l IH]; simpl in *; [discriminate|].
  destruct (Video.id w =? Video.id v) eqn:E.
  - simpl. now rewrite Z.eqb_refl.
  - simpl. rewrite E. now apply IH.
Qed.

Lemma has_video_find k s :
  has_video k s = false -> find (fun w => Video.id w =? k) (videos s) = None.
Proof.
  unfold has_video. intros E.
  destruct (find _ (videos s)) as [v|] eqn:F; [|reflexivity].
  apply find_some in F.
  assert (existsb (fun w => Video.id w =? k) (videos s) = true)
    by (apply existsb_exists; exists v; exact F).
  congruence.
Qed.

Lemma find_has_video k v s :
  find (fun w => Video.id w =? k) (videos s) = Some v -> has_video k s = true.
Proof.
  intros F. apply find_some in F. apply existsb_exists. now exists v.
Qed.

Section LikeFacts.
Context `{Bcrypt} `{Jwt} `{Env} `{Path} `{Fs} `{Postgres}.

Lemma server_like_found now a u i k v s :
  decoded now a = Some u ->
  as_int4 i = Some k ->
  find (fun w => Video.id w =? k) (videos s) = Some v ->
  int4 (Video.likes v + 1) = true ->
  Server.handle now (POST_videos_like a i) s
  = (liked now v s, Responded (mkResponse 200 (JsonVideo (liked_row now v)))).
Proof.
  intros Ha Hi Hf Hb. unfold_server.
  rewrite (authMiddleware_next _ _ _ _ Ha). run_body.
  rewrite Hi. simpl. rewrite Hf. simpl. rewrite Hb. reflexivity.
Qed.

Lemma part000_like_found now a u i k v s :
  decoded now a = Some u ->
  as_int4 i = Some k ->
  find (fun w => Video.id w =? k) (videos s) = Some v ->
  int4 (Video.likes v + 1) = true ->
  Part000.handle now (POST_videos_like a i) s
  = (liked now v s, Responded (mkResponse 200 (JsonVideo (liked_row now v)))).
Proof.
  intros Ha Hi Hf Hb. unfold_part000.
  rewrite (authMiddleware_next _ _ _ _ Ha). run_body.
  rewrite Hi. simpl. rewrite Hf. simpl. rewrite Hb. reflexivity.
Qed.

Lemma server_like_refused now a u i k v s :
  decoded now a = Some u ->
  as_int4 i = Some k ->
  find (fun w => Video.id w =? k) (videos s) = Some v ->
  int4 (Video.likes v + 1) = false ->
  Server.handle now (POST_videos_like a i) s
  = (s, Responded (mkResponse 500 (JsonError "Like failed"))).
Proof.
  intros Ha Hi Hf Hb. unfold_server.
  rewrite (authMiddleware_next _ _ _ _ Ha). run_body.
  rewrite Hi. simpl. rewrite Hf. simpl. rewrite Hb. reflexivity.
Qed.

Lemma part000_like_refused now a u i k v s :
  decoded now a = Some u ->
  as_int4 i = Some k ->
  find (fun w => Video.id w =? k) (videos s) = Some v ->
  int4 (Video.likes v + 1) = false ->
  Part000.handle now (POST_videos_like a i) s = (s, Rejected DataError).
Proof.
  intros Ha Hi Hf Hb. unfold_part000.
  rewrite (authMiddleware_next _ _ _ _ Ha). run_body.
  rewrite Hi. simpl. rewrite Hf. simpl. rewrite Hb. reflexivity.
Qed.

Lemma server_like_absent now a u i k s :
  decoded now a = Some u ->
  as_int4 i = Some k ->
  find (fun w => Video.id w =? k) (videos s) = None ->
  Server.handle now (POST_videos_like a i) s
  = (s, Responded (mkResponse 404 (JsonError "Video not found"))).
Proof.
  intros Ha Hi Hf. unfold_server.
  rewrite (authMiddleware_next _ _ _ _ Ha). run_body.
  rewrite Hi. simpl. rewrite Hf. reflexivity.
Qed.

Lemma server_like_no_integer now a u i s :
  decoded now a = Some u ->
  as_int4 i = None ->
  Server.handle now (POST_videos_like a i) s
  = (s, Responded (mkResponse 500 (JsonError "Like failed"))).
Proof.
  intros Ha Hi. unfold_server.
  rewrite (authMiddleware_next _ _ _ _ Ha). run_body.
  rewrite Hi. reflexivity.
Qed.

Lemma liked_reads_back now i k v s :
  as_int4 i = Some k ->
  find (fun w => Video.id w =? k) (videos s) = Some v ->
  Video_findByPk i (liked now v s)
  = (liked now v s, inr (Some (liked_row now v))).
Proof.
  intros Hi Hf. unfold Video_findByPk. rewrite Hi. simpl.
  now rewrite (find_liked now k v _ Hf).
Qed.

(** C1.  An authenticated like of a stored video, in both server files.
    The liked values are the likes plus one and, as score, the binary64
    value of [likes + views / 10] at the new likes; for a video without
    views that is the number of the new likes, exactly.  While the new
    likes are
    within INTEGER, the route stores these values with the clock reading
    as [updatedAt] in the row of the video and answers 200 with that row,
    and the row is what a read by the key returns afterwards.  When the
    new likes are beyond INTEGER the save is refused and nothing is
    stored: src/server.js answers 500 [Like failed], the handler of
    src/unnamed/part_000 throws. *)
Theorem like_recomputes_and_persists_score now a u i k v s :
  decoded now a = Some u ->
  as_int4 i = Some k ->
  find (fun w => Video.id w =? k) (videos s) = Some v ->
  Video.likes (like v) = Video.likes v + 1
  /\ Video.recommendationsScore (like v)
     = spec_score (Video.likes v + 1) (Video.views v)
  /\ (Video.views v = 0 -> 0 <= Video.likes v ->
      Video.recommendationsScore (like v) = JS.js_number (Video.likes v + 1))
  /\ (int4 (Video.likes v + 1) = true ->
      Server.handle now (POST_videos_like a i) s
      = (liked now v s,
         Responded (mkResponse 200 (JsonVideo (liked_row now v))))
      /\ Part000.handle now (POST_videos_like a i) s
         = (liked now v s,
            Responded (mkResponse 200 (JsonVideo (liked_row now v))))
      /\ Video_findByPk i (liked now v s)
         = (liked now v s, inr (Some (liked_row now v)))
      /\ Video.likes (liked_row now v) = Video.likes v + 1
      /\ Video.recommendationsScore (liked_row now v)
         = spec_score (Video.likes v + 1) (Video.views v)
      /\ Video.updatedAt (liked_row now v) = now
      /\ (Video.views v = 0 -> 0 <= Video.likes v ->
          exactly (Video.recommendationsScore (liked_row now v))
                  (Video.likes v + 1) 1 = true))
  /\ (int4 (Video.likes v + 1) = false ->
      Server.handle now (POST_videos_like a i) s
      = (s, Responded (mkResponse 500 (JsonError "Like failed")))
      /\ Part000.handle now (POST_videos_like a i) s = (s, Rejected DataError)).
Proof.
  intros Ha Hi Hf.
  split; [reflexivity|]. split; [reflexivity|]. split; [|split].
  - intros Hv Hl. unfold like; simpl. rewrite Hv.
    apply spec_score_no_views. lia.
  - intros Hb. split; [|split; [|split; [|split; [|split; [|split]]]]];
      try reflexivity.
    + eapply server_like_found; eassumption.
    + eapply part000_like_found; eassumption.
    + eapply liked_reads_back; eassumption.
    + intros Hv Hl.
      change (Video.recommendationsScore (liked_row now v))
        with (spec_score (Video.likes v + 1) (Video.views v)).
      rewrite Hv, spec_score_no_views by lia.
      apply js_number_exact. unfold int4 in Hb.
      apply andb_true_iff in Hb. destruct Hb as [_ Hb]. apply Z.leb_le in Hb.
      split; [lia|]. apply Z.le_lt_trans with 2147483647; [lia|reflexivity].
  - intros Hb. split.
    + eapply server_like_refused; eassumption.
    + eapply part000_like_refused; eassumption.
Qed.
End LikeFacts.

(** ** The example states are reachable *)

Lemma demo_store1_server :
  fst (Demo.run Server.handle 1000
         [Demo.register1; Demo.upload1; Demo.comment1] empty_store)
  = Demo.store1.
Proof. reflexivity. Qed.

Lemma demo_store1_server_reachable : Server.reachable Demo.store1.
Proof.
  exact (Server.reach_handle 1000 Demo.comment1
           (Server.reach_handle 1000 Demo.upload1
              (Server.reach_handle 1000 Demo.register1
                 (Server.reach_initial (Some []))))).
Qed.

Lemma demo_store1_part000_reachable : Part000.reachable Demo.store1.
Proof.
  exact (Part000.reach_handle 1000 Demo.comment1
           (Part000.reach_handle 1000 Demo.upload1
              (Part000.reach_handle 1000 Demo.register1
                 (Part000.reach_initial (Some []))))).
Qed.

Lemma demo_bearer1 now :
  decoded now Demo.bearer1 = Some (mkPayload (Some (Integer 1))).
Proof. reflexivity. Qed.

Lemma demo_like_step n :
  0 <= n < 2147483647 ->
  fst (Server.handle 1000 (POST_videos_like Demo.bearer1 (Integer 1))
         (Demo.store_liked n))
  = Demo.store_liked (n + 1).
Proof.
  intros Hn.
  rewrite (server_like_found 1000 Demo.bearer1 (mkPayload (Some (Integer 1)))
             (Integer 1) 1 (Demo.clip_liked n) (Demo.store_liked n)
             (demo_bearer1 1000) eq_refl eq_refl).
  - unfold liked, liked_row, like, Demo.store_liked, Demo.clip_liked; simpl.
    unfold set_videos; simpl. do 3 f_equal.
    unfold Video.set_updatedAt, Video.set_recommendationsScore; simpl.
    f_equal. apply (spec_score_no_views (n + 1)). lia.
  - simpl. unfold int4. apply andb_true_iff. split; apply Z.leb_le; lia.
Qed.

Lemma demo_liked_reachable n :
  0 <= n <= 2147483647 -> Server.reachable (Demo.store_liked n).
Proof.
  intros [H0 Hn]. revert Hn. pattern n. apply natlike_ind; [| |exact H0].
  - intros _. exact demo_store1_server_reachable.
  - intros x Hx IH Hs. unfold Z.succ.
    rewrite <- demo_like_step by lia.
    apply Server.reach_handle. apply IH. lia.
Qed.

(** The witness of C1: the first two likes of the example clip. *)
Lemma like_recomputes_and_persists_score_witness :
  decoded 1000 Demo.bearer1 = Some (mkPayload (Some (Integer 1)))
  /\ find (fun w => Video.id w =? 1) (videos Demo.store1) = Some Demo.clip
  /\ Server.handle 1000 (POST_videos_like Demo.bearer1 (Integer 1)) Demo.store1
     = (liked 1000 Demo.clip Demo.store1,
        Responded (mkResponse 200 (JsonVideo (liked_row 1000 Demo.clip))))
  /\ Video.likes (liked_row 1000 Demo.clip) = 1
  /\ Video.recommendationsScore (liked_row 1000 Demo.clip) = 1%float
  /\ Video.likes (liked_row 1000 (liked_row 1000 Demo.clip)) = 2
  /\ Video.recommendationsScore (liked_row 1000 (liked_row 1000 Demo.clip))
     = 2%float
  /\ exactly (Video.recommendationsScore (liked_row 1000 Demo.clip)) 1 1
     = true.
Proof.
  pose proof (like_recomputes_and_persists_score
                1000 Demo.bearer1 (mkPayload (Some (Integer 1))) (Integer 1) 1
                Demo.clip Demo.store1 (demo_bearer1 1000) eq_refl eq_refl)
    as (_ & _ & _ & H4 & _).
  destruct (H4 eq_refl) as (H5 & _ & _ & _ & _ & _ & H6).
  assert (Hl : 0 <= Video.likes Demo.clip) by (simpl; lia).
  split; [reflexivity|]. split; [reflexivity|]. split; [exact H5|].
  split; [reflexivity|]. split; [reflexivity|]. split; [reflexivity|].
  split; [reflexivity|]. exact (H6 eq_refl Hl).
Defined.

(** Against C1 as worded: in the state that 2147483647 likes of the
    example clip lead to, one more like answers 500 and stores nothing;
    and the score of one like and one view is not 11/10. *)
Lemma like_at_integer_bound_counterexample :
  Server.reachable (Demo.store_liked 2147483647)
  /\ Server.handle 1000 (POST_videos_like Demo.bearer1 (Integer 1))
       (Demo.store_liked 2147483647)
     = (Demo.store_liked 2147483647,
        Responded (mkResponse 500 (JsonError "Like failed")))
  /\ exactly (spec_score 1 1) 11 10 = false.
Proof.
  split; [apply demo_liked_reachable; lia|].
  split; [|vm_compute; reflexivity].
  exact (server_like_refused 1000 Demo.bearer1
           (mkPayload (Some (Integer 1))) (Integer 1) 1
           (Demo.clip_liked 2147483647) (Demo.store_liked 2147483647)
           (demo_bearer1 1000) eq_refl eq_refl eq_refl).
Qed.

(** ** Views, scores and references in the reachable states *)

Section Invariants.
Context `{Bcrypt} `{Jwt} `{Env} `{Path} `{Fs} `{Postgres}.

Lemma reachable_schema s :
  Server.reachable s \/ Part000.reachable s -> schema_inv s.
Proof.
  intros [Hs|Hs];
    [now apply server_reachable_inv|now apply part000_reachable_inv].
Qed.

(** C2.  In every state that the requests (register, login, upload,
    duet, like, comment and the reading routes) lead to from empty tables,
    in either server file, every video has [views = 0] and its score is
    the number of its likes. *)
Theorem views_stay_zero s :
  Server.reachable s \/ Part000.reachable s ->
  Forall (fun v => Video.views v = 0
                   /\ Video.recommendationsScore v = JS.js_number (Video.likes v))
         (videos s).
Proof.
  intros Hs. apply reachable_schema in Hs.
  destruct Hs as (_ & Hv & _).
  eapply Forall_impl; [|exact Hv].
  intros v (Hviews & _ & Hscore). now split.
Qed.

Lemma comment_not_stored now a i t s :
  (forall k, as_int4 i = Some k -> has_video k s = false) ->
  comments (fst (Server.handle now (POST_videos_comments a i t) s))
  = comments s.
Proof.
  intros Hk. unfold_server. through_auth now a; run_body;
    repeat split_match; try reflexivity.
  bool_hyps. rewrite (Hk _ eq_refl) in *. discriminate.
Qed.

(** C4.  In every reachable state every comment's [videoId] is the key of
    a stored video, and its [userId] is the key of a stored user or NULL;
    a comment request keeps this for any video id; and for an id that no
    stored video has (or that is no 32-bit integer) it stores no
    comment. *)
Theorem comment_references_exist s :
  Server.reachable s \/ Part000.reachable s ->
  Forall (fun c => has_video (Comment.videoId c) s = true
                   /\ match Comment.userId c with
                      | Some u => has_user u s = true
                      | None => True
                      end)
         (comments s)
  /\ (forall now a i t,
        refs_inv (fst (Server.handle now (POST_videos_comments a i t) s))
        /\ refs_inv (fst (Part000.handle now (POST_videos_comments a i t) s)))
  /\ (forall now a i t,
        (forall k, as_int4 i = Some k -> has_video k s = false) ->
        comments (fst (Server.handle now (POST_videos_comments a i t) s))
        = comments s
        /\ comments (fst (Part000.handle now (POST_videos_comments a i t) s))
           = comments s).
Proof.
  intros Hs. apply reachable_schema in Hs.
  destruct Hs as (_ & _ & Hr & _).
  split; [|split].
  - eapply Forall_impl; [|exact Hr]. intros c [Hv Hu]. split; [exact Hv|].
    unfold user_ref_ok in Hu. now destruct (Comment.userId c).
  - intros now a i t. split; (eapply effect_refs; [|exact Hr]).
    + apply server_handle_effect.
    + apply part000_handle_effect.
  - intros now a i t Hk. rewrite part000_store_as_server.
    split; now apply comment_not_stored.
Qed.
End Invariants.

(** The witness of C2: the example state. *)
Lemma views_stay_zero_witness :
  Server.reachable Demo.store1
  /\ Forall (fun v => Video.views v = 0
                      /\ Video.recommendationsScore v
                         = JS.js_number (Video.likes v))
            (videos Demo.store1).
Proof.
  split; [exact demo_store1_server_reachable|].
  exact (views_stay_zero Demo.store1 (or_introl demo_store1_server_reachable)).
Defined.

(** The witness of C4: the example state, which holds a comment, and a
    comment on the absent video 9. *)
Lemma comment_references_exist_witness :
  Server.reachable Demo.store1
  /\ refs_inv Demo.store1
  /\ has_video 9 Demo.store1 = false
  /\ comments (fst (Server.handle 2000
                      (POST_videos_comments Demo.bearer1 (Integer 9) (Str "x"))
                      Demo.store1))
     = comments Demo.store1.
Proof.
  pose proof (comment_references_exist Demo.store1
                (or_introl demo_store1_server_reachable))
    as (_ & _ & H3).
  split; [exact demo_store1_server_reachable|].
  split; [repeat constructor|]. split; [reflexivity|].
  refine (proj1 (H3 2000 Demo.bearer1 (Integer 9) (Str "x") _)).
  intros k E. injection E as <-. reflexivity.
Defined.

(** Against C4 as worded: a comment sent with a token whose payload has
    no [id] (here signed with the fallback secret) is stored with a NULL
    [userId]; the state is reachable and the comment is by no user. *)
Lemma comment_without_user_counterexample :
  decoded 2000 Demo.bearer_anonymous = Some (mkPayload None)
  /\ Server.handle 2000
       (POST_videos_comments Demo.bearer_anonymous (Integer 1) (Str "hm"))
       Demo.store1
     = (set_comments_seq 2
          (set_comments
             [Demo.note; Comment.mk 2 1 None (Some "hm") 2000 2000 2000]
             Demo.store1),
        Responded (mkResponse 200 (JsonComment
          (Comment.mk 2 1 None (Some "hm") 2000 2000 2000))))
  /\ Server.reachable
       (set_comments_seq 2
          (set_comments
             [Demo.note; Comment.mk 2 1 None (Some "hm") 2000 2000 2000]
             Demo.store1))
  /\ ~ comment_refs_as_worded
         (set_comments_seq 2
            (set_comments
               [Demo.note; Comment.mk 2 1 None (Some "hm") 2000 2000 2000]
               Demo.store1))
  /\ Part000.handle 2000
       (POST_videos_comments Demo.bearer_anonymous (Integer 1) (Str "hm"))
       Demo.store1
     = Server.handle 2000
         (POST_videos_comments Demo.bearer_anonymous (Integer 1) (Str "hm"))
         Demo.store1.
Proof.
  split; [reflexivity|]. split; [reflexivity|].
  split; [|split; [|reflexivity]].
  - exact (Server.reach_handle 2000
             (POST_videos_comments Demo.bearer_anonymous (Integer 1)
                (Str "hm"))
             demo_store1_server_reachable).
  - unfold comment_refs_as_worded. simpl. intros Hall.
    inversion Hall as [|? ? _ Htl]; subst.
    inversion Htl as [|? ? [_ (u & Hu & _)] _]; subst.
    discriminate Hu.
Qed.

(** ** A like of an absent video *)

(** C3.  In src/unnamed/part_000 a like of a video id that no stored video
    has is not answered with 404: reading [likes] of [null] throws and the
    promise of the handler is rejected (here: the example state, which has
    no video 7); src/server.js answers 404. *)
Theorem part000_like_of_absent_video_throws :
  has_video 7 Demo.store1 = false
  /\ Part000.handle 2000 (POST_videos_like Demo.bearer1 (Integer 7)) Demo.store1
     = (Demo.store1,
        Rejected (TypeError "Cannot read properties of null (reading 'likes')"))
  /\ Server.handle 2000 (POST_videos_like Demo.bearer1 (Integer 7)) Demo.store1
     = (Demo.store1, Responded (mkResponse 404 (JsonError "Video not found"))).
Proof. repeat split. Qed.

(** ** The frame of a like *)

Lemma NoDup_map_eq {A B} (f : A -> B) l x y :
  NoDup (map f l) -> In x l -> In y l -> f x = f y -> x = y.
Proof.
  induction l as [|z l IH]; simpl; [tauto|].
  intros Hnd Hx Hy E. inversion Hnd as [|? ? Hz Hl]; subst.
  destruct Hx as [->|Hx], Hy as [->|Hy]; auto.
  - exfalso. apply Hz. rewrite E. now apply in_map.
  - exfalso. apply Hz. rewrite <- E. now apply in_map.
Qed.

Lemma liked_own_row now k v l :
  NoDup (map Video.id l) ->
  find (fun w => Video.id w =? k) l = Some v ->
  map (fun w => if Video.id w =? Video.id v then liked_row now v else w) l
  = map (fun w => if Video.id w =? k then liked_row now w else w) l.
Proof.
  intros Hnd Hf. pose proof (find_video_id _ _ _ Hf) as Hk. subst k.
  apply map_ext_in. intros w Hw.
  destruct (Video.id w =? Video.id v) eqn:E; [|reflexivity].
  apply Z.eqb_eq in E. apply find_some in Hf. destruct Hf as [Hv _].
  now rewrite (NoDup_map_eq Video.id l w v Hnd Hw Hv E).
Qed.

(** C8.  A like of a stored video, in a reachable state of src/server.js:
    the users, the comments, the sequences and the directory are as
    before; while the new likes are within INTEGER, the video with the
    liked key is replaced by its liked row and every other video is as
    before, and otherwise nothing changes at all; and the liked row of a
    video has the key, owner, url, caption, views, timestamp and
    [createdAt] of the video, one more like, the score of the new likes,
    and the clock reading as [updatedAt]. *)
Theorem like_changes_only_likes_and_score
    `{Bcrypt} `{Jwt} `{Env} `{Path} `{Fs} `{Postgres} now a u i k v s :
  Server.reachable s ->
  decoded now a = Some u ->
  as_int4 i = Some k ->
  find (fun w => Video.id w =? k) (videos s) = Some v ->
  users (fst (Server.handle now (POST_videos_like a i) s)) = users s
  /\ comments (fst (Server.handle now (POST_videos_like a i) s)) = comments s
  /\ disk (fst (Server.handle now (POST_videos_like a i) s)) = disk s
  /\ (int4 (Video.likes v + 1) = true ->
      videos (fst (Server.handle now (POST_videos_like a i) s))
      = map (fun w => if Video.id w =? k then liked_row now w else w)
            (videos s))
  /\ (int4 (Video.likes v + 1) = false ->
      fst (Server.handle now (POST_videos_like a i) s) = s)
  /\ (forall w : Video.t,
        Video.id (liked_row now w) = Video.id w
        /\ Video.userId (liked_row now w) = Video.userId w
        /\ Video.url (liked_row now w) = Video.url w
        /\ Video.caption (liked_row now w) = Video.caption w
        /\ Video.views (liked_row now w) = Video.views w
        /\ Video.timestamp (liked_row now w) = Video.timestamp w
        /\ Video.createdAt (liked_row now w) = Video.createdAt w
        /\ Video.likes (liked_row now w) = Video.likes w + 1
        /\ Video.recommendationsScore (liked_row now w)
           = spec_score (Video.likes w + 1) (Video.views w)
        /\ Video.updatedAt (liked_row now w) = now).
Proof.
  intros Hs Ha Hi Hf.
  destruct (int4 (Video.likes v + 1)) eqn:Hb.
  - rewrite (server_like_found now a u i k v s Ha Hi Hf Hb). simpl.
    split; [reflexivity|]. split; [reflexivity|]. split; [reflexivity|].
    split; [|split; [discriminate|intros w; repeat split]].
    intros _. apply liked_own_row; [|exact Hf].
    apply server_reachable_inv in Hs. apply Hs.
  - rewrite (server_like_refused now a u i k v s Ha Hi Hf Hb). simpl.
    split; [reflexivity|]. split; [reflexivity|]. split; [reflexivity|].
    split; [discriminate|]. split; [reflexivity|intros w; repeat split].
Qed.

(** The witness of C8: a like of the example clip. *)
Lemma like_changes_only_likes_and_score_witness :
  Server.reachable Demo.store1
  /\ users (fst (Server.handle 2000
                   (POST_videos_like Demo.bearer1 (Integer 1)) Demo.store1))
     = [Demo.alice]
  /\ comments (fst (Server.handle 2000
                      (POST_videos_like Demo.bearer1 (Integer 1)) Demo.store1))
     = [Demo.note]
  /\ videos (fst (Server.handle 2000
                    (POST_videos_like Demo.bearer1 (Integer 1)) Demo.store1))
     = [liked_row 2000 Demo.clip].
Proof.
  pose proof (like_changes_only_likes_and_score
                2000 Demo.bearer1 (mkPayload (Some (Integer 1))) (Integer 1) 1
                Demo.clip Demo.store1
                demo_store1_server_reachable (demo_bearer1 2000)
                eq_refl eq_refl)
    as (H1 & H2 & _ & H3 & _).
  split; [exact demo_store1_server_reachable|].
  split; [exact H1|]. split; [exact H2|exact (H3 eq_refl)].
Defined.

(** Against C8 as worded: a like also changes the [updatedAt] of the
    video (the example clip, stored at 1000 and liked at 2000), a field
    that is neither [likes] nor [recommendationsScore]. *)
Lemma like_changes_updatedAt_counterexample :
  find (fun w => Video.id w =? 1) (videos Demo.store1) = Some Demo.clip
  /\ map Video.updatedAt (videos Demo.store1) = [1000]
  /\ map Video.updatedAt
       (videos (fst (Server.handle 2000
                       (POST_videos_like Demo.bearer1 (Integer 1))
                       Demo.store1)))
     = [2000]
  /\ snd (Server.handle 2000 (POST_videos_like Demo.bearer1 (Integer 1))
            Demo.store1)
     = Responded (mkResponse 200 (JsonVideo
         (Video.mk 1 "/videos/1000.mp4" (Some "hi") (Some 1) 1 0 1000 1%float
                   1000 2000))).
Proof. repeat split. Qed.

(** ** The two feeds *)

Lemma StronglySorted_weaken {A} (R R' : A -> A -> Prop) l :
  (forall a b, R a b -> R' a b) -> StronglySorted R l -> StronglySorted R' l.
Proof.
  intros HR. induction 1 as [|a l _ IH Ha]; constructor; [exact IH|].
  eapply Forall_impl; [|exact Ha]. intros b. apply HR.
Qed.

Lemma StronglySorted_app_cross {A} (R : A -> A -> Prop) l1 l2 :
  StronglySorted R (l1 ++ l2) ->
  forall a b, In a l1 -> In b l2 -> R a b.
Proof.
  induction l1 as [|x l1 IH]; simpl; [intros _ a b []|].
  intros Hs a b [<-|Ha] Hb; inversion Hs as [|? ? Hl Hx]; subst.
  - rewrite Forall_forall in Hx. apply Hx. apply in_or_app. now right.
  - now apply IH.
Qed.

Lemma timestamp_desc_total a b :
  timestamp_desc a b = false -> timestamp_desc b a = true.
Proof. unfold timestamp_desc. lia. Qed.

Lemma timestamp_desc_trans a b c :
  timestamp_desc a b = true -> timestamp_desc b c = true ->
  timestamp_desc a c = true.
Proof. unfold timestamp_desc. lia. Qed.

Lemma recommendationsScore_desc_total a b :
  recommendationsScore_desc a b = false -> recommendationsScore_desc b a = true.
Proof. apply float8_le_total. Qed.

Lemma recommendationsScore_desc_trans a b c :
  recommendationsScore_desc a b = true -> recommendationsScore_desc b c = true ->
  recommendationsScore_desc a c = true.
Proof. intros Hab Hbc. eapply float8_le_trans; eassumption. Qed.

Lemma comment_timestamp_desc_total a b :
  comment_timestamp_desc a b = false -> comment_timestamp_desc b a = true.
Proof. unfold comment_timestamp_desc. lia. Qed.

Lemma comment_timestamp_desc_trans a b c :
  comment_timestamp_desc a b = true -> comment_timestamp_desc b c = true ->
  comment_timestamp_desc a c = true.
Proof. unfold comment_timestamp_desc. lia. Qed.

Section Feeds.
Context `{Bcrypt} `{Jwt} `{Env} `{Path} `{Fs} `{Postgres}.

(** C5.  While the directory [videos/] exists, GET /videos is not
    answered with the videos: [express.static], mounted on [/videos]
    ahead of the routes (line 15), answers 301 with a redirect to
    [/videos/], in both server files, and the handler of the route is not
    reached. *)
Theorem get_videos_is_redirected now s names :
  disk s = Some names ->
  Server.handle now GET_videos s
  = (s, Responded (mkResponse 301 (Redirect "/videos/")))
  /\ Part000.handle now GET_videos s
     = (s, Responded (mkResponse 301 (Redirect "/videos/"))).
Proof.
  intros Hd. unfold_server; unfold_part000; unfold static_mount.
  rewrite Hd. split; reflexivity.
Qed.

(** The feeds where the handlers are reached: GET /videos/ (without an
    index file in the directory), GET /videos when the directory does not
    exist, and GET /recommended.  Both files answer 200 and change
    nothing.  The first two answer with all the stored videos, every video
    before all those with a smaller or equal timestamp; the third with at
    most 20 of the stored videos, every one before all those of the answer
    with a smaller or equal score.  The order of videos that the column
    does not tell apart is the database's. *)
Lemma feeds_are_ordered now s :
  served "index.html" s = false ->
  exists by_time top rest,
    Server.handle now GET_videos_slash s
    = (s, Responded (mkResponse 200 (JsonVideos by_time)))
    /\ Part000.handle now GET_videos_slash s
       = (s, Responded (mkResponse 200 (JsonVideos by_time)))
    /\ (disk s = None ->
        Server.handle now GET_videos s
        = (s, Responded (mkResponse 200 (JsonVideos by_time)))
        /\ Part000.handle now GET_videos s
           = (s, Responded (mkResponse 200 (JsonVideos by_time))))
    /\ Permutation by_time (videos s)
    /\ StronglySorted (fun a b => Video.timestamp b <= Video.timestamp a)
         by_time
    /\ Server.handle now GET_recommended s
       = (s, Responded (mkResponse 200 (JsonVideos top)))
    /\ Part000.handle now GET_recommended s
       = (s, Responded (mkResponse 200 (JsonVideos top)))
    /\ Permutation (top ++ rest) (videos s)
    /\ StronglySorted
         (fun a b => float8_le (Video.recommendationsScore b)
                               (Video.recommendationsScore a) = true)
         top
    /\ (List.length top <= 20)%nat.
Proof.
  intros Hi.
  set (by_time := order_by timestamp_desc
                    (videos_scan VideosByTimestamp (videos s))).
  set (by_score := order_by recommendationsScore_desc
                     (videos_scan VideosByScore (videos s))).
  exists by_time, (firstn 20 by_score), (skipn 20 by_score).
  assert (Hs : StronglySorted (fun a b => recommendationsScore_desc a b = true)
                 by_score).
  { apply order_by_sorted;
      [apply recommendationsScore_desc_total
      |apply recommendationsScore_desc_trans]. }
  assert (Hslash :
            Server.handle now GET_videos_slash s
            = (s, Responded (mkResponse 200 (JsonVideos by_time)))
            /\ Part000.handle now GET_videos_slash s
               = (s, Responded (mkResponse 200 (JsonVideos by_time)))).
  { unfold_server; unfold_part000; unfold static_index.
    rewrite Hi. split; reflexivity. }
  assert (Hmount :
            disk s = None ->
            Server.handle now GET_videos s
            = (s, Responded (mkResponse 200 (JsonVideos by_time)))
            /\ Part000.handle now GET_videos s
               = (s, Responded (mkResponse 200 (JsonVideos by_time)))).
  { intros Hd. unfold_server; unfold_part000; unfold static_mount.
    rewrite Hd. split; reflexivity. }
  destruct Hslash as [Hs1 Hs2].
  split; [exact Hs1|]. split; [exact Hs2|]. split; [exact Hmount|].
  split; [|split; [|split; [reflexivity|split; [reflexivity|]]]].
  - unfold by_time. rewrite order_by_perm. apply videos_scan_perm.
  - apply StronglySorted_weaken
      with (R := fun a b => timestamp_desc a b = true).
    + intros a b. unfold timestamp_desc. lia.
    + apply order_by_sorted;
        [apply timestamp_desc_total|apply timestamp_desc_trans].
  - split; [|split].
    + rewrite firstn_skipn. unfold by_score. rewrite order_by_perm.
      apply videos_scan_perm.
    + apply firstn_sorted. exact Hs.
    + apply firstn_le_length.
Qed.

(** GET /recommended leaves out only videos that no returned video scores
    below: the answer has [min 20 n] of the [n] stored videos, every
    returned video has a score at least that of every video left out, and
    with 20 videos or fewer all of them are returned. *)
Lemma recommended_is_top now s :
  exists top rest,
    snd (Server.handle now GET_recommended s)
    = Responded (mkResponse 200 (JsonVideos top))
    /\ snd (Part000.handle now GET_recommended s)
       = Responded (mkResponse 200 (JsonVideos top))
    /\ List.length top = Nat.min 20 (List.length (videos s))
    /\ Permutation (top ++ rest) (videos s)
    /\ (forall a b, In a top -> In b rest ->
          float8_le (Video.recommendationsScore b)
                    (Video.recommendationsScore a) = true)
    /\ ((List.length (videos s) <= 20)%nat -> Permutation top (videos s)).
Proof.
  set (by_score := order_by recommendationsScore_desc
                     (videos_scan VideosByScore (videos s))).
  exists (firstn 20 by_score), (skipn 20 by_score).
  assert (Hp : Permutation by_score (videos s)).
  { unfold by_score. rewrite order_by_perm. apply videos_scan_perm. }
  assert (Hlen : List.length by_score = List.length (videos s))
    by now apply Permutation_length.
  split; [reflexivity|]. split; [reflexivity|]. split; [|split; [|split]].
  - now rewrite length_firstn, Hlen.
  - now rewrite firstn_skipn.
  - apply (StronglySorted_app_cross
             (fun a b => recommendationsScore_desc a b = true)).
    rewrite firstn_skipn.
    apply order_by_sorted;
      [apply recommendationsScore_desc_total
      |apply recommendationsScore_desc_trans].
  - intros Hle. rewrite firstn_all2 by lia. exact Hp.
Qed.
End Feeds.

(** The witness of C5: the example state, whose directory exists. *)
Lemma get_videos_is_redirected_witness :
  disk Demo.store1 = Some ["1000.mp4"]
  /\ Server.handle 2000 GET_videos Demo.store1
     = (Demo.store1, Responded (mkResponse 301 (Redirect "/videos/")))
  /\ Server.handle 2000 GET_videos_slash Demo.store1
     = (Demo.store1, Responded (mkResponse 200 (JsonVideos [Demo.clip]))).
Proof.
  split; [reflexivity|].
  split; [|reflexivity].
  exact (proj1 (get_videos_is_redirected 2000 Demo.store1 ["1000.mp4"]
                  eq_refl)).
Defined.

Lemma feeds_are_ordered_witness :
  served "index.html" Demo.store1 = false
  /\ exists l,
       Server.handle 2000 GET_videos_slash Demo.store1
       = (Demo.store1, Responded (mkResponse 200 (JsonVideos l)))
       /\ Permutation l (videos Demo.store1).
Proof.
  split; [reflexivity|].
  destruct (feeds_are_ordered 2000 Demo.store1 eq_refl)
    as (l & _ & _ & H1 & _ & _ & H2 & _).
  exists l. split; assumption.
Defined.

(** The two orders are not the same order: an older clip with a like
    comes last by time and first by score. *)
Lemma feeds_differ_example :
  let older :=
    Video.mk 1 "/videos/1.mp4" None (Some 1) 1 0 1000 1%float 1000 1500 in
  let newer :=
    Video.mk 2 "/videos/2.mp4" None (Some 1) 0 0 2000 0%float 2000 2000 in
  order_by timestamp_desc [older; newer] = [newer; older]
  /\ order_by recommendationsScore_desc [older; newer] = [older; newer].
Proof. split; reflexivity. Qed.

(** ** Login with a wrong password *)

Section Login.
Context `{Bcrypt} `{Jwt} `{Env} `{Path} `{Fs} `{Postgres}.

(** C6.  A login request with a password that is a string: when it is
    not the password of the user that the query for the email finds, and
    when the query finds no user, the answer is the same, 401 with the
    same body, and nothing changes: [{ error: 'Invalid credentials' }] in
    src/server.js, the text [Invalid credentials] in
    src/unnamed/part_000. *)
Theorem login_wrong_password_uniform now e pw u s1 s2 :
  e <> Undefined ->
  user_with_email e s1 = Some u ->
  bcrypt_compare pw (User.password u) = false ->
  user_with_email e s2 = None ->
  Server.handle now (POST_login e (Str pw)) s1
  = (s1, Responded (mkResponse 401 (JsonError "Invalid credentials")))
  /\ Server.handle now (POST_login e (Str pw)) s2
     = (s2, Responded (mkResponse 401 (JsonError "Invalid credentials")))
  /\ snd (Server.handle now (POST_login e (Str pw)) s1)
     = snd (Server.handle now (POST_login e (Str pw)) s2)
  /\ Part000.handle now (POST_login e (Str pw)) s1
     = (s1, Responded (mkResponse 401 (Text "Invalid credentials")))
  /\ Part000.handle now (POST_login e (Str pw)) s2
     = (s2, Responded (mkResponse 401 (Text "Invalid credentials")))
  /\ snd (Part000.handle now (POST_login e (Str pw)) s1)
     = snd (Part000.handle now (POST_login e (Str pw)) s2).
Proof.
  intros He Hu Hpw Hnone.
  unfold_server; unfold_part000. run_body.
  destruct e as [| |x]; [congruence| |]; simpl;
    rewrite Hu, Hnone; simpl; rewrite Hpw; simpl; repeat split.
Qed.
End Login.

(** The witness of C6: the user of the example state with the password
    [z], and the state without users. *)
Lemma login_wrong_password_uniform_witness :
  user_with_email (Str "a@x.com") Demo.store1 = Some Demo.alice
  /\ bcrypt_compare "z" (User.password Demo.alice) = false
  /\ user_with_email (Str "a@x.com") empty_store = None
  /\ snd (Server.handle 2000 (POST_login (Str "a@x.com") (Str "z")) Demo.store1)
     = snd (Server.handle 2000 (POST_login (Str "a@x.com") (Str "z"))
              empty_store)
  /\ snd (Part000.handle 2000 (POST_login (Str "a@x.com") (Str "z"))
            Demo.store1)
     = snd (Part000.handle 2000 (POST_login (Str "a@x.com") (Str "z"))
              empty_store).
Proof.
  assert (Hne : Str "a@x.com" <> Undefined) by discriminate.
  pose proof (login_wrong_password_uniform
                2000 (Str "a@x.com") "z" Demo.alice Demo.store1 empty_store
                Hne eq_refl eq_refl eq_refl) as (_ & _ & H3 & _ & _ & H6).
  repeat split; assumption.
Defined.

(** Against C6 as worded: a login without a password (or with one that
    is not a string) is answered 500 [Login failed] by src/server.js when
    a user has the email, and 401 when none has; in src/unnamed/part_000
    the handler throws in the first case only. *)
Lemma login_without_password_counterexample :
  Server.handle 2000 (POST_login (Str "a@x.com") Undefined) Demo.store1
  = (Demo.store1, Responded (mkResponse 500 (JsonError "Login failed")))
  /\ Server.handle 2000 (POST_login (Str "a@x.com") Undefined) empty_store
     = (empty_store,
        Responded (mkResponse 401 (JsonError "Invalid credentials")))
  /\ Part000.handle 2000 (POST_login (Str "a@x.com") Undefined) Demo.store1
     = (Demo.store1, Rejected IllegalArguments)
  /\ Part000.handle 2000 (POST_login (Str "a@x.com") Undefined) empty_store
     = (empty_store, Responded (mkResponse 401 (Text "Invalid credentials")))
  /\ user_with_email (Str "a@x.com") Demo.store1 = Some Demo.alice
  /\ user_with_email (Str "a@x.com") empty_store = None
  /\ snd (Server.handle 2000 (POST_login (Str "a@x.com") Undefined)
            Demo.store1)
     <> snd (Server.handle 2000 (POST_login (Str "a@x.com") Undefined)
               empty_store).
Proof. repeat split. discriminate. Qed.

(** ** Fresh keys and lengths *)










(** ** Duets *)

Section Duets.
Context `{Bcrypt} `{Jwt} `{Env} `{Path} `{Fs} `{Postgres}.


End Duets.



(** ** Registration *)


Section Registration.
Context `{Bcrypt} `{Jwt} `{Env} `{Path} `{Fs} `{Postgres}.



End Registration.


(** ** The Authorization header *)

Lemma prefix_app p t : String.prefix p (p ++ t) = true.
Proof.
  induction p as [|c p IH]; simpl; [now destruct t|].
  destruct (Ascii.ascii_dec c c); [exact IH|congruence].
Qed.

Lemma drop_app p t : JS.drop (String.length p) (p ++ t) = t.
Proof. induction p as [|c p IH]; simpl; [reflexivity|exact IH]. Qed.

Lemma replace_first_prefixed p t : JS.replace_first p (p ++ t) = t.
Proof.
  destruct p as [|c p]; [now destruct t|].
  change (JS.replace_first (String c p) (String c p ++ t))
    with (if String.prefix (String c p) (String c p ++ t)
          then JS.drop (String.length (String c p)) (String c p ++ t)
          else String c (JS.replace_first (String c p) (p ++ t))).
  now rewrite prefix_app, drop_app.
Qed.

Lemma replace_first_absent p t :
  JS.includes p t = false -> JS.replace_first p t = t.
Proof.
  induction t as [|c t IH]; intros Ht.
  - destruct p; [discriminate Ht|reflexivity].
  - change (String.prefix p (String c t) || JS.includes p t = false) in Ht.
    change (JS.replace_first p (String c t))
      with (if String.prefix p (String c t)
            then JS.drop (String.length p) (String c t)
            else String c (JS.replace_first p t)).
    apply orb_false_iff in Ht. destruct Ht as [Hp Hi].
    now rewrite Hp, IH.
Qed.

Section Bearer.
Context `{Jwt} `{Env}.

(** C10, as the code has it.  The gate removes the first occurrence of
    ["Bearer "] from the header value, wherever it is, and verifies what is
    left.  So the prefix of a prefixed token is stripped; a token that does
    not contain ["Bearer "] is verified as it is, and the gate treats it as
    it treats the prefixed one: when the token is valid, the request goes
    on with the payload of the token.  Without an Authorization header the
    answer is 401. *)
Theorem auth_gate_accepts_bare_token now t next :
  JS.includes "Bearer " t = false ->
  (forall h, bearer_token (Some h) = Some (JS.replace_first "Bearer " h))
  /\ bearer_token (Some ("Bearer " ++ t)) = Some t
  /\ bearer_token (Some t) = Some t
  /\ authMiddleware now (Some t) next
     = authMiddleware now (Some ("Bearer " ++ t)) next
  /\ (forall u, JS.truthy t = true -> jwt_verify t secret now = Some u ->
        authMiddleware now (Some t) next = next u
        /\ authMiddleware now (Some ("Bearer " ++ t)) next = next u)
  /\ authMiddleware now None next = respond 401 (Text "No token").
Proof.
  intros Ht.
  assert (Hp : bearer_token (Some ("Bearer " ++ t)) = Some t).
  { cbv [bearer_token option_map].
    now rewrite (replace_first_prefixed "Bearer " t). }
  assert (Hb : bearer_token (Some t) = Some t).
  { cbv [bearer_token option_map].
    now rewrite (replace_first_absent "Bearer " t Ht). }
  assert (He : authMiddleware now (Some t) next
               = authMiddleware now (Some ("Bearer " ++ t)) next).
  { unfold authMiddleware. now rewrite Hp, Hb. }
  split; [reflexivity|]. split; [exact Hp|]. split; [exact Hb|].
  split; [exact He|]. split; [|reflexivity].
  intros u Htruthy Hvalid.
  assert (Hnext : authMiddleware now (Some t) next = next u).
  { unfold authMiddleware. rewrite Hb, Htruthy. simpl. now rewrite Hvalid. }
  split; [exact Hnext|]. now rewrite <- He.
Qed.
End Bearer.

(** The witness of C10: the token of the example user, bare and
    prefixed. *)
Lemma auth_gate_accepts_bare_token_witness :
  JS.includes "Bearer " "secret.i" = false
  /\ forall next,
       authMiddleware 2000 (Some "secret.i") next
       = next (mkPayload (Some (Integer 1)))
       /\ authMiddleware 2000 (Some "Bearer secret.i") next
          = next (mkPayload (Some (Integer 1))).
Proof.
  split; [reflexivity|]. intros next.
  pose proof (auth_gate_accepts_bare_token 2000 "secret.i" next eq_refl)
    as (_ & _ & _ & _ & H5 & _).
  exact (H5 (mkPayload (Some (Integer 1))) eq_refl eq_refl).
Defined.

(** C10, as it is worded, fails: the header value [secBearer ret.i] has no
    ["Bearer "] prefix and is not a valid token, so a gate that verifies the
    raw value of such a header refuses it; the middleware removes the
    ["Bearer "] inside it and lets the request through as user 1. *)
Lemma auth_gate_inner_bearer_counterexample :
  String.prefix "Bearer " "secBearer ret.i" = false
  /\ prefix_stripped (Some "secBearer ret.i") = Some "secBearer ret.i"
  /\ jwt_verify "secBearer ret.i" secret 2000 = None
  /\ bearer_token (Some "secBearer ret.i") = Some "secret.i"
  /\ bearer_token (Some "secBearer ret.i")
     <> prefix_stripped (Some "secBearer ret.i")
  /\ forall next,
       authMiddleware 2000 (Some "secBearer ret.i") next
       = next (mkPayload (Some (Integer 1))).
Proof.
  repeat split; try reflexivity. discriminate.
Qed.

(** ** Further properties of the routes *)

(** The scenario of the specification on src/server.js: a registration, an
    upload with the token, and two likes. *)
Lemma scenario_register_upload_like_like :
  snd (Demo.run Server.handle 1000
         [POST_register (Str "a@x.com") (Str "p") (Str "a");
          POST_videos (Some "Bearer secret.i") (Some (mkUpload "clip.mp4" 1000))
            Undefined;
          POST_videos_like (Some "Bearer secret.i") (Integer 1);
          POST_videos_like (Some "Bearer secret.i") (Integer 1)]
         empty_store)
  = [Responded (mkResponse 200 (JsonToken "secret.i"));
     Responded (mkResponse 200 (JsonVideo
       (Video.mk 1 "/videos/1000.mp4" None (Some 1) 0 0 1000 0%float
                 1000 1000)));
     Responded (mkResponse 200 (JsonVideo
       (Video.mk 1 "/videos/1000.mp4" None (Some 1) 1 0 1000 1%float
                 1000 1000)));
     Responded (mkResponse 200 (JsonVideo
       (Video.mk 1 "/videos/1000.mp4" None (Some 1) 2 0 1000 2%float
                 1000 1000)))].
Proof. reflexivity. Qed.

Section Gate.
Context `{Bcrypt} `{Jwt} `{Env} `{Path} `{Fs} `{Postgres}.

(** src/server.js answers an authenticated like of an id that is a
    32-bit integer with 404 exactly when no stored video has the id, and
    then changes nothing; for an id that is no 32-bit integer the answer
    is 500 [Like failed]. *)
Lemma server_like_not_found_iff now a u i s :
  decoded now a = Some u ->
  (forall k, as_int4 i = Some k ->
     (snd (Server.handle now (POST_videos_like a i) s)
      = Responded (mkResponse 404 (JsonError "Video not found"))
      <-> has_video k s = false)
     /\ (has_video k s = false ->
         fst (Server.handle now (POST_videos_like a i) s) = s))
  /\ (as_int4 i = None ->
      Server.handle now (POST_videos_like a i) s
      = (s, Responded (mkResponse 500 (JsonError "Like failed")))).
Proof.
  intros Ha. split; [|now apply server_like_no_integer with (u := u)].
  intros k Hi.
  destruct (find (fun w => Video.id w =? k) (videos s)) as [v|] eqn:Hf.
  - rewrite (find_has_video k v s Hf).
    destruct (int4 (Video.likes v + 1)) eqn:Hb.
    + rewrite (server_like_found now a u i k v s Ha Hi Hf Hb). simpl.
      split; [split|]; discriminate.
    + rewrite (server_like_refused now a u i k v s Ha Hi Hf Hb). simpl.
      split; [split|]; discriminate.
  - rewrite (server_like_absent now a u i k s Ha Hi Hf). simpl.
    assert (has_video k s = false).
    { unfold has_video. destruct (existsb _ (videos s)) eqn:E; [|reflexivity].
      apply existsb_exists in E. destruct E as (w & Hw & Ew).
      now rewrite (find_none _ _ Hf w Hw) in Ew. }
    tauto.
Qed.

(** A request that the auth gate does not let through (no header, an
    empty token, a token that does not verify) is answered 401 by each of
    the protected routes of src/server.js, and changes nothing. *)
Lemma unauthenticated_requests_change_nothing now a s :
  decoded now a = None ->
  exists msg,
    (msg = "No token" \/ msg = "Invalid token")
    /\ forall r,
         (exists f c, r = POST_videos a f c)
         \/ (exists i, r = POST_videos_like a i)
         \/ (exists i t, r = POST_videos_comments a i t)
         \/ (exists f c, r = POST_duets a f c) ->
         Server.handle now r s = (s, Responded (mkResponse 401 (Text msg))).
Proof.
  intros Ha.
  assert (Hm : exists msg, (msg = "No token" \/ msg = "Invalid token")
                 /\ forall next, authMiddleware now a next
                                 = respond 401 (Text msg)).
  { unfold decoded in Ha. unfold authMiddleware.
    destruct (bearer_token a) as [token|];
      [|exists "No token"; split; [now left|reflexivity]].
    destruct (JS.truthy token); simpl;
      [|exists "No token"; split; [now left|reflexivity]].
    rewrite Ha. exists "Invalid token". split; [now right|reflexivity]. }
  destruct Hm as (msg & Hmsg & Hgate). exists msg. split; [exact Hmsg|].
  intros r [(f & c & ->)|[(i & ->)|[(i & t & ->)|(f & c & ->)]]];
    unfold Server.handle, route, Server.post_videos, Server.post_videos_like,
      Server.post_videos_comments, Server.post_duets;
    now rewrite Hgate.
Qed.

(** The reading routes and the login leave the state as it is. *)
Lemma reading_routes_change_nothing now s :
  fst (Server.handle now GET_videos s) = s
  /\ fst (Server.handle now GET_recommended s) = s
  /\ (forall i, fst (Server.handle now (GET_videos_comments i) s) = s)
  /\ (forall u, fst (Server.handle now (GET_profile u) s) = s)
  /\ (forall e p, fst (Server.handle now (POST_login e p) s) = s).
Proof.
  split; [|split; [|split; [|split]]]; intros;
    unfold_server; run_body; repeat split_match; reflexivity.
Qed.
End Gate.

Lemma server_like_not_found_iff_witness :
  decoded 2000 Demo.bearer1 = Some (mkPayload (Some (Integer 1)))
  /\ has_video 7 Demo.store1 = false
  /\ snd (Server.handle 2000 (POST_videos_like Demo.bearer1 (Integer 7))
            Demo.store1)
     = Responded (mkResponse 404 (JsonError "Video not found"))
  /\ Server.handle 2000 (POST_videos_like Demo.bearer1 (Integer 4294967297))
       Demo.store1
     = (Demo.store1, Responded (mkResponse 500 (JsonError "Like failed"))).
Proof.
  pose proof (server_like_not_found_iff 2000 Demo.bearer1
                (mkPayload (Some (Integer 1))) (Integer 7) Demo.store1
                (demo_bearer1 2000)) as [H1 _].
  destruct (H1 7 eq_refl) as [H2 _].
  split; [reflexivity|]. split; [reflexivity|].
  split; [exact (proj2 H2 eq_refl)|reflexivity].
Defined.

Lemma unauthenticated_requests_change_nothing_witness :
  decoded 2000 None = None
  /\ exists msg,
       Server.handle 2000 (POST_videos_like None (Integer 1)) Demo.store1
       = (Demo.store1, Responded (mkResponse 401 (Text msg))).
Proof.
  split; [reflexivity|].
  destruct (unauthenticated_requests_change_nothing 2000 None Demo.store1
              eq_refl) as (msg & _ & Hr).
  exists msg. apply Hr. right; left. now exists (Integer 1).
Defined.

(** ** The two server files side by side *)

Section BothFiles.
Context `{Bcrypt} `{Jwt} `{Env} `{Path} `{Fs} `{Postgres}.


(** The two files write the same: on every request, from every state,
    src/unnamed/part_000 leaves the state that src/server.js leaves. *)
Lemma part000_writes_as_server now r s :
  fst (Part000.handle now r s) = fst (Server.handle now r s).
Proof.
  destruct r as [ | | | |name| |e p n|e p|a f c|a i|i|a i t|u|a f c| ];
    unfold_server; unfold_part000.
  - reflexivity.
  - reflexivity.
  - unfold static_mount. now destruct (disk s).
  - unfold static_index. now destruct (served "index.html" s).
  - unfold static_file. now destruct (served name s).
  - reflexivity.
  - run_body. repeat split_match; reflexivity.
  - run_body. repeat split_match; reflexivity.
  - through_auth now a; run_body; repeat split_match; reflexivity.
  - through_auth now a; run_body; repeat split_match; reflexivity.
  - run_body. repeat split_match; reflexivity.
  - through_auth now a; run_body; repeat split_match; reflexivity.
  - run_body. repeat split_match; reflexivity.
  - through_auth now a; run_body; repeat split_match; reflexivity.
  - reflexivity.
Qed.

(** The promise of the handler of src/unnamed/part_000 is rejected
    exactly when src/server.js answers the request 500 from a [catch], or
    answers a like 404. *)
Lemma part000_rejects_where_server_fails now r s :
  (exists e, snd (Part000.handle now r s) = Rejected e)
  <-> (exists msg, snd (Server.handle now r s)
                   = Responded (mkResponse 500 (JsonError msg)))
      \/ (exists a i, r = POST_videos_like a i
                      /\ snd (Server.handle now r s)
                         = Responded (mkResponse 404 (JsonError "Video not found"))).
Proof.
  destruct r as [ | | | |name| |e p n|e p|a f c|a i|i|a i t|u|a f c| ];
    unfold_server; unfold_part000; try through_auth now a; run_body;
    repeat split_match;
    (split;
     [intros [x E]; try discriminate; eauto 6
     |intros [[m E]|(a' & i' & E1 & E2)]; try discriminate; eauto]).
Qed.
End BothFiles.

(** ** What no request does to the rows that are stored *)

(** Users and comments are only ever added, one at a time, and no video
    is removed. *)
Lemma effect_append_only s s' :
  effect s s' ->
  exists us cs,
    users s' = (users s ++ us)%list
    /\ comments s' = (comments s ++ cs)%list
    /\ (List.length us + List.length cs <= 1)%nat
    /\ (List.length (videos s) <= List.length (videos s'))%nat.
Proof.
  intros ([Eu Ev Ec|u Eu Ev Ec _ _ _ _|v Eu Ev Ec _ _ _ _ _ _ _
          |now v Eu Ev Ec _ _|c Eu Ev Ec _ _ _ _ _] & _).
  - exists [], []. rewrite Eu, Ev, Ec, !app_nil_r. simpl. repeat split; lia.
  - exists [u], []. rewrite Eu, Ev, Ec, app_nil_r. simpl. repeat split; lia.
  - exists [], []. rewrite Eu, Ev, Ec, !app_nil_r, length_app. simpl.
    repeat split; lia.
  - exists [], []. rewrite Eu, Ev, Ec, !app_nil_r. simpl.
    rewrite length_map. repeat split; lia.
  - exists [], [c]. rewrite Eu, Ev, Ec, app_nil_r. simpl. repeat split; lia.
Qed.

(** A stored video keeps its place, key, url, owner, caption, views and
    timestamp, and its likes grow by one at most. *)
Lemma effect_keeps_videos s s' n v :
  keys_inv s ->
  effect s s' ->
  nth_error (videos s) n = Some v ->
  exists v',
    nth_error (videos s') n = Some v'
    /\ Video.id v' = Video.id v
    /\ Video.url v' = Video.url v
    /\ Video.userId v' = Video.userId v
    /\ Video.caption v' = Video.caption v
    /\ Video.views v' = Video.views v
    /\ Video.timestamp v' = Video.timestamp v
    /\ Video.likes v <= Video.likes v' <= Video.likes v + 1.
Proof.
  intros (_ & (Hnd & _) & _) (He & _) Hn.
  assert (Hsame : exists v', Some v = Some v'
            /\ Video.id v' = Video.id v /\ Video.url v' = Video.url v
            /\ Video.userId v' = Video.userId v
            /\ Video.caption v' = Video.caption v
            /\ Video.views v' = Video.views v
            /\ Video.timestamp v' = Video.timestamp v
            /\ Video.likes v <= Video.likes v' <= Video.likes v + 1).
  { exists v. repeat split; lia. }
  destruct He as [_ Ev _|u _ Ev|w _ Ev|now v0 _ Ev _ Hin _|c _ Ev];
    rewrite Ev; try (rewrite Hn; exact Hsame).
  - rewrite nth_error_app1 by (apply nth_error_Some; congruence).
    rewrite Hn; exact Hsame.
  - simpl. rewrite nth_error_map, Hn. simpl.
    destruct (Video.id v =? Video.id v0) eqn:E; [|exact Hsame].
    apply Z.eqb_eq in E.
    assert (v = v0).
    { apply (NoDup_map_eq Video.id (videos s)); auto.
      eapply nth_error_In; exact Hn. }
    subst v0. exists (liked_row now v). simpl. repeat split; lia.
Qed.

Lemma in_emails e u us :
  In u us -> User.email u = Some e -> In e (emails us).
Proof.
  induction us as [|x us IH]; simpl; [tauto|].
  intros [->|Hin] He.
  - rewrite He. now left.
  - destruct (User.email x); [right|]; now apply IH.
Qed.

Lemma emails_unique us u u' e :
  NoDup (emails us) -> In u us -> In u' us ->
  User.email u = Some e -> User.email u' = Some e -> u = u'.
Proof.
  induction us as [|x us IH]; simpl; [tauto|].
  intros Hnd [->|Hu] [->|Hu'] He He'; auto.
  - exfalso. rewrite He in Hnd. inversion Hnd as [|? ? Hx _]; subst.
    apply Hx. eapply in_emails; eassumption.
  - exfalso. rewrite He' in Hnd. inversion Hnd as [|? ? Hx _]; subst.
    apply Hx. eapply in_emails; eassumption.
  - apply IH; auto. destruct (User.email x); [|exact Hnd].
    now inversion Hnd.
Qed.

Section Stored.
Context `{Bcrypt} `{Jwt} `{Env} `{Path} `{Fs} `{Postgres}.

(** Whatever the request, in either file: the users and the comments of
    the database are still there, in their places and unchanged, with at
    most one new row after them, and no video is removed. *)
Lemma requests_only_append now r s :
  (exists us cs,
     users (fst (Server.handle now r s)) = (users s ++ us)%list
     /\ comments (fst (Server.handle now r s)) = (comments s ++ cs)%list
     /\ (List.length us + List.length cs <= 1)%nat
     /\ (List.length (videos s)
         <= List.length (videos (fst (Server.handle now r s))))%nat)
  /\ (exists us cs,
        users (fst (Part000.handle now r s)) = (users s ++ us)%list
        /\ comments (fst (Part000.handle now r s)) = (comments s ++ cs)%list
        /\ (List.length us + List.length cs <= 1)%nat
        /\ (List.length (videos s)
            <= List.length (videos (fst (Part000.handle now r s))))%nat).
Proof.
  split; apply effect_append_only;
    [apply server_handle_effect|apply part000_handle_effect].
Qed.

(** In a reachable state, whatever the request, in either file: every
    stored video keeps its place, key, url, owner, caption, views and
    timestamp, and its likes stay or grow by one. *)
Lemma requests_keep_videos now r s n v :
  Server.reachable s \/ Part000.reachable s ->
  nth_error (videos s) n = Some v ->
  (exists v',
     nth_error (videos (fst (Server.handle now r s))) n = Some v'
     /\ Video.id v' = Video.id v
     /\ Video.url v' = Video.url v
     /\ Video.userId v' = Video.userId v
     /\ Video.caption v' = Video.caption v
     /\ Video.views v' = Video.views v
     /\ Video.timestamp v' = Video.timestamp v
     /\ Video.likes v <= Video.likes v' <= Video.likes v + 1)
  /\ (exists v',
        nth_error (videos (fst (Part000.handle now r s))) n = Some v'
        /\ Video.id v' = Video.id v
        /\ Video.url v' = Video.url v
        /\ Video.userId v' = Video.userId v
        /\ Video.caption v' = Video.caption v
        /\ Video.views v' = Video.views v
        /\ Video.timestamp v' = Video.timestamp v
        /\ Video.likes v <= Video.likes v' <= Video.likes v + 1).
Proof.
  intros Hs Hn. apply reachable_schema in Hs. destruct Hs as (Hk & _).
  split; eapply effect_keeps_videos; try eassumption;
    [apply server_handle_effect|apply part000_handle_effect].
Qed.

(** In every reachable state of either file no two users have the same
    email (users without email apart), and the owner of every video is a
    stored user or NULL. *)
Lemma reachable_emails_distinct_owners_stored s :
  Server.reachable s \/ Part000.reachable s ->
  (forall u u' e, In u (users s) -> In u' (users s) ->
     User.email u = Some e -> User.email u' = Some e -> u = u')
  /\ Forall (fun v => match Video.userId v with
                      | Some o => has_user o s = true
                      | None => True
                      end)
            (videos s).
Proof.
  intros Hs. apply reachable_schema in Hs.
  destruct Hs as (_ & _ & _ & Ho & He). split.
  - intros u u' e. now apply emails_unique.
  - eapply Forall_impl; [|exact Ho]. intros v Hv.
    unfold user_ref_ok in Hv. now destruct (Video.userId v).
Qed.
End Stored.

Lemma requests_keep_videos_witness :
  Server.reachable Demo.store1
  /\ nth_error (videos Demo.store1) 0 = Some Demo.clip
  /\ exists v',
       nth_error (videos (fst (Server.handle 2000
                                 (POST_videos_like Demo.bearer1 (Integer 1))
                                 Demo.store1))) 0 = Some v'
       /\ Video.url v' = "/videos/1000.mp4"
       /\ Video.userId v' = Some 1.
Proof.
  split; [exact demo_store1_server_reachable|]. split; [reflexivity|].
  destruct (requests_keep_videos 2000
              (POST_videos_like Demo.bearer1 (Integer 1)) Demo.store1
              0%nat Demo.clip
              (or_introl demo_store1_server_reachable) eq_refl)
    as [(v' & Hn & _ & Hurl & Hown & _) _].
  exists v'. repeat split; assumption.
Defined.

Lemma reachable_emails_distinct_owners_stored_witness :
  Server.reachable Demo.store1
  /\ Forall (fun v => match Video.userId v with
                      | Some o => has_user o Demo.store1 = true
                      | None => True
                      end)
            (videos Demo.store1).
Proof.
  split; [exact demo_store1_server_reachable|].
  exact (proj2 (reachable_emails_distinct_owners_stored Demo.store1
                  (or_introl demo_store1_server_reachable))).
Defined.

(** ** Credentials: registration, login and the token *)


Lemma has_user_new u s s' :
  users s' = (users s ++ [u])%list -> has_user (User.id u) s' = true.
Proof.
  intros E. unfold has_user. rewrite E, existsb_app. simpl.
  rewrite Z.eqb_refl. now rewrite orb_true_r.
Qed.

Lemma decoded_bearer `{Jwt} `{Env} now token u :
  JS.truthy token = true ->
  jwt_verify token secret now = Some u ->
  decoded now (Some ("Bearer " ++ token)) = Some u.
Proof.
  intros Ht Hv. unfold decoded, bearer_token.
  cbv [option_map]. rewrite (replace_first_prefixed "Bearer " token).
  now rewrite Ht.
Qed.

Lemma in_store_file name names : In name (store_file name names).
Proof.
  unfold store_file. destruct (existsb _ names) eqn:E.
  - apply existsb_exists in E. destruct E as (x & Hx & Ex).
    apply String.eqb_eq in Ex. now subst x.
  - apply in_or_app. right. now left.
Qed.

Section Credentials.
Context `{Bcrypt} `{Jwt} `{Env} `{Path} `{Fs} `{Postgres}.


(** A login with an email for which the query finds a user and a
    password that [bcrypt.compare] accepts against the stored hash answers
    200 with a token signed for the key of that user, in both files, and
    changes nothing. *)
Lemma login_right_password_gets_token now e pw u s :
  user_with_email (Str e) s = Some u ->
  bcrypt_compare pw (User.password u) = true ->
  Server.handle now (POST_login (Str e) (Str pw)) s
  = (s, Responded (mkResponse 200 (JsonToken (jwt_sign (User.id u) secret now))))
  /\ Part000.handle now (POST_login (Str e) (Str pw)) s
     = (s, Responded (mkResponse 200 (JsonToken (jwt_sign (User.id u) secret now)))).
Proof.
  intros Hu Hpw. unfold_server; unfold_part000. run_body.
  rewrite Hu. simpl. rewrite Hpw. simpl. split; reflexivity.
Qed.

Lemma server_login_found now e pw u s :
  user_with_email (Str e) s = Some u ->
  bcrypt_compare pw (User.password u) = true ->
  Server.handle now (POST_login (Str e) (Str pw)) s
  = (s, Responded (mkResponse 200 (JsonToken (jwt_sign (User.id u) secret now)))).
Proof.
  intros Hu Hpw. unfold_server. run_body.
  rewrite Hu. simpl. rewrite Hpw. reflexivity.
Qed.



(** An upload or a duet that the gate lets through but that carries no
    file changes nothing; one that carries a file but whose token names a
    user that is not stored adds no video, yet the file is left in
    [videos/].  In both cases src/server.js answers 500 ([Upload failed],
    [Duet upload failed]) and the handler of src/unnamed/part_000
    throws. *)
Lemma upload_without_file_or_owner now a u c s :
  decoded now a = Some u ->
  (Server.handle now (POST_videos a None c) s
   = (s, Responded (mkResponse 500 (JsonError "Upload failed")))
   /\ Server.handle now (POST_duets a None c) s
      = (s, Responded (mkResponse 500 (JsonError "Duet upload failed")))
   /\ (exists e, Part000.handle now (POST_videos a None c) s = (s, Rejected e))
   /\ (exists e, Part000.handle now (POST_duets a None c) s = (s, Rejected e)))
  /\ (forall k f names,
        payload_id u = Some (Integer k) ->
        has_user k s = false ->
        disk s = Some names ->
        fs_accepts (storage_filename (stored_at f) (originalname f)) = true ->
        let name := storage_filename (stored_at f) (originalname f) in
        let s' := fst (Server.handle now (POST_videos a (Some f) c) s) in
        let d' := fst (Server.handle now (POST_duets a (Some f) c) s) in
        snd (Server.handle now (POST_videos a (Some f) c) s)
        = Responded (mkResponse 500 (JsonError "Upload failed"))
        /\ snd (Server.handle now (POST_duets a (Some f) c) s)
           = Responded (mkResponse 500 (JsonError "Duet upload failed"))
        /\ (exists e,
              snd (Part000.handle now (POST_videos a (Some f) c) s)
              = Rejected e)
        /\ (exists e,
              snd (Part000.handle now (POST_duets a (Some f) c) s)
              = Rejected e)
        /\ videos s' = videos s /\ videos d' = videos s
        /\ disk s' = Some (store_file name names)
        /\ disk d' = Some (store_file name names)
        /\ In name (store_file name names)).
Proof.
  intros Ha. split.
  - unfold_server; unfold_part000.
    rewrite !(authMiddleware_next _ _ _ _ Ha). run_body. eauto 6.
  - intros k f names Hp Hu Hd Hfs name s' d'.
    unfold s', d'. unfold_server; unfold_part000.
    rewrite !(authMiddleware_next _ _ _ _ Ha). run_body.
    rewrite Hd, Hfs, Hp. simpl. fold name.
    assert (Hin : In name (store_file name names)) by apply in_store_file.
    repeat split_match; bool_hyps;
      unfold user_ref_ok, has_user in *; simpl in *;
      try congruence; repeat split; eauto.
Qed.

(** Without JWT_SECRET in the environment (or with an empty one) the
    tokens that the server issues are signed with the string [secret], and
    the gate verifies against that same string: a non-empty token that
    [jwt.verify] accepts under [secret], whoever made it, is let through
    with its payload. *)
Lemma fallback_secret_is_the_key now now' token u :
  JWT_SECRET = None \/ JWT_SECRET = Some EmptyString ->
  JS.truthy token = true ->
  jwt_verify token "secret" now' = Some u ->
  secret = "secret"
  /\ decoded now' (Some ("Bearer " ++ token)) = Some u
  /\ (forall next,
        authMiddleware now' (Some ("Bearer " ++ token)) next = next u)
  /\ (forall e pw usr s,
        user_with_email (Str e) s = Some usr ->
        bcrypt_compare pw (User.password usr) = true ->
        snd (Server.handle now (POST_login (Str e) (Str pw)) s)
        = Responded (mkResponse 200
            (JsonToken (jwt_sign (User.id usr) "secret" now)))).
Proof.
  intros Henv Ht Hv.
  assert (Hs : secret = "secret").
  { unfold secret. destruct Henv as [-> | ->]; reflexivity. }
  assert (Hd : decoded now' (Some ("Bearer " ++ token)) = Some u).
  { apply decoded_bearer; [exact Ht|now rewrite Hs]. }
  split; [exact Hs|]. split; [exact Hd|]. split.
  - intros next. now apply authMiddleware_next.
  - intros e pw usr s Hu Hpw.
    rewrite (server_login_found now e pw usr s Hu Hpw). simpl.
    now rewrite Hs.
Qed.
End Credentials.

Lemma login_right_password_gets_token_witness :
  user_with_email (Str "a@x.com") Demo.store1 = Some Demo.alice
  /\ bcrypt_compare "p" (User.password Demo.alice) = true
  /\ Server.handle 2000 (POST_login (Str "a@x.com") (Str "p")) Demo.store1
     = (Demo.store1, Responded (mkResponse 200 (JsonToken "secret.i"))).
Proof.
  split; [reflexivity|]. split; [reflexivity|].
  exact (proj1 (login_right_password_gets_token
                  2000 "a@x.com" "p" Demo.alice Demo.store1 eq_refl eq_refl)).
Defined.



Lemma upload_without_file_or_owner_witness :
  decoded 2000 Demo.bearer1 = Some (mkPayload (Some (Integer 1)))
  /\ Server.handle 2000 (POST_videos Demo.bearer1 None (Str "hi")) Demo.store1
     = (Demo.store1, Responded (mkResponse 500 (JsonError "Upload failed"))).
Proof.
  split; [reflexivity|].
  exact (proj1 (proj1 (upload_without_file_or_owner
                  2000 Demo.bearer1 (mkPayload (Some (Integer 1))) (Str "hi")
                  Demo.store1 (demo_bearer1 2000)))).
Defined.

Lemma fallback_secret_is_the_key_witness :
  JWT_SECRET = None
  /\ decoded 5000 (Some "Bearer secret.iiiiiii")
     = Some (mkPayload (Some (Integer 7))).
Proof.
  split; [reflexivity|].
  exact (proj1 (proj2 (fallback_secret_is_the_key
                  1000 5000 "secret.iiiiiii" (mkPayload (Some (Integer 7)))
                  (or_introl eq_refl) eq_refl eq_refl))).
Defined.

(** ** Comments and profiles *)

Lemma Permutation_filter {A} (p : A -> bool) l l' :
  Permutation l l' -> Permutation (filter p l) (filter p l').
Proof.
  induction 1 as [|x l l' _ IH|x y l|l l' l'' _ IH1 _ IH2]; simpl.
  - constructor.
  - destruct (p x); [now constructor|exact IH].
  - destruct (p x), (p y); try reflexivity. apply perm_swap.
  - now transitivity (filter p l').
Qed.


Section Reading.
Context `{Bcrypt} `{Jwt} `{Env} `{Path} `{Fs} `{Postgres}.

Lemma comments_of_video_listed k s c :
  In c (order_by comment_timestamp_desc
          (filter (fun d => Comment.videoId d =? k)
                  (comments_scan (CommentsOfVideo k) (comments s))))
  <-> In c (comments s) /\ Comment.videoId c = k.
Proof.
  rewrite <- Z.eqb_eq, <- (filter_In (fun d => Comment.videoId d =? k)).
  assert (Hp : Permutation
                 (order_by comment_timestamp_desc
                    (filter (fun d => Comment.videoId d =? k)
                            (comments_scan (CommentsOfVideo k) (comments s))))
                 (filter (fun d => Comment.videoId d =? k) (comments s))).
  { rewrite order_by_perm. apply Permutation_filter, comments_scan_perm. }
  split; apply Permutation_in; [|symmetry]; exact Hp.
Qed.

(** GET /videos/:id/comments, for an id that is a 32-bit integer,
    answers 200, in both files, with exactly the stored comments whose
    [videoId] is the id (each as often as it is stored), the later ones
    first, and changes nothing; for an id without comments, and for an id
    that no video has, the list is empty.  For an id that is no 32-bit
    integer the query throws: 500 [Comments fetch failed] in
    src/server.js. *)
Lemma comments_feed_ordered now i s :
  (forall k, as_int4 i = Some k ->
     exists l,
       Server.handle now (GET_videos_comments i) s
       = (s, Responded (mkResponse 200 (JsonComments l)))
       /\ Part000.handle now (GET_videos_comments i) s
          = (s, Responded (mkResponse 200 (JsonComments l)))
       /\ Permutation l (filter (fun d => Comment.videoId d =? k) (comments s))
       /\ (forall c, In c l <-> In c (comments s) /\ Comment.videoId c = k)
       /\ StronglySorted
            (fun a b => Comment.timestamp b <= Comment.timestamp a) l
       /\ ((forall c, In c (comments s) -> Comment.videoId c <> k) -> l = []))
  /\ (as_int4 i = None ->
      Server.handle now (GET_videos_comments i) s
      = (s, Responded (mkResponse 500 (JsonError "Comments fetch failed")))
      /\ Part000.handle now (GET_videos_comments i) s
         = (s, Rejected DataError)).
Proof.
  split.
  - intros k Hi.
    exists (order_by comment_timestamp_desc
              (filter (fun d => Comment.videoId d =? k)
                      (comments_scan (CommentsOfVideo k) (comments s)))).
    split; [|split; [|split; [|split; [|split]]]].
    + unfold_server. run_body. now rewrite Hi.
    + unfold_part000. run_body. now rewrite Hi.
    + rewrite order_by_perm. apply Permutation_filter, comments_scan_perm.
    + intros c. apply comments_of_video_listed.
    + apply StronglySorted_weaken
        with (R := fun a b => comment_timestamp_desc a b = true).
      * intros a b. unfold comment_timestamp_desc. lia.
      * apply order_by_sorted;
          [apply comment_timestamp_desc_total
          |apply comment_timestamp_desc_trans].
    + intros Hnone.
      destruct (order_by _ _) as [|c l'] eqn:E; [reflexivity|].
      assert (Hc : In c (order_by comment_timestamp_desc
                           (filter (fun d => Comment.videoId d =? k)
                              (comments_scan (CommentsOfVideo k)
                                 (comments s)))))
        by (rewrite E; now left).
      apply comments_of_video_listed in Hc. destruct Hc as [Hin Hk].
      now apply Hnone in Hin.
  - intros Hi. unfold_server; unfold_part000. run_body. rewrite Hi.
    split; reflexivity.
Qed.


(** GET /profile/:userId, for an id that is a 32-bit integer.  When a
    user has the key, both files answer 200 with the stored row of that
    user, all its columns (the email and the password hash among them),
    and exactly the videos whose [userId] is the key, in the order in
    which the database returns them.  When no user has the key,
    src/server.js answers 404, and src/unnamed/part_000 answers 200 with
    a null user and those videos.  For an id that is no 32-bit integer
    the query throws: 500 [Profile fetch failed] in src/server.js. *)
Lemma profile_of_user now i s :
  (forall k, as_int4 i = Some k ->
     exists vs,
       Permutation vs
         (filter (fun v => match Video.userId v with
                           | Some o => o =? k
                           | None => false
                           end)
                 (videos s))
       /\ (forall v, In v vs <-> In v (videos s) /\ Video.userId v = Some k)
       /\ (forall u,
             find (fun x => User.id x =? k) (users s) = Some u ->
             In u (users s) /\ User.id u = k
             /\ Server.handle now (GET_profile i) s
                = (s, Responded (mkResponse 200 (JsonProfile (Some u) vs)))
             /\ Part000.handle now (GET_profile i) s
                = (s, Responded (mkResponse 200 (JsonProfile (Some u) vs))))
       /\ (has_user k s = false ->
           Server.handle now (GET_profile i) s
           = (s, Responded (mkResponse 404 (JsonError "User not found")))
           /\ Part000.handle now (GET_profile i) s
              = (s, Responded (mkResponse 200 (JsonProfile None vs)))))
  /\ (as_int4 i = None ->
      Server.handle now (GET_profile i) s
      = (s, Responded (mkResponse 500 (JsonError "Profile fetch failed")))
      /\ Part000.handle now (GET_profile i) s = (s, Rejected DataError)).
Proof.
  split.
  - intros k Hi.
    set (owned := fun v => match Video.userId v with
                           | Some o => o =? k
                           | None => false
                           end).
    exists (filter owned (videos_scan (VideosOfUser k) (videos s))).
    assert (Hp : Permutation
                   (filter owned (videos_scan (VideosOfUser k) (videos s)))
                   (filter owned (videos s)))
      by apply Permutation_filter, videos_scan_perm.
    split; [exact Hp|]. split; [|split].
    + intros v. split.
      * intros Hv. apply (Permutation_in _ Hp) in Hv.
        apply filter_In in Hv. destruct Hv as [Hin Ho]. split; [exact Hin|].
        unfold owned in Ho. destruct (Video.userId v); [|discriminate].
        apply Z.eqb_eq in Ho. now subst.
      * intros [Hin Ho]. apply (Permutation_in _ (Permutation_sym Hp)).
        apply filter_In. split; [exact Hin|].
        unfold owned. rewrite Ho. apply Z.eqb_refl.
    + intros u Hu. pose proof (find_some _ _ Hu) as [Hin Hid].
      apply Z.eqb_eq in Hid. split; [exact Hin|]. split; [exact Hid|].
      unfold_server; unfold_part000. run_body. rewrite Hi. simpl.
      rewrite Hu. split; reflexivity.
    + intros Hnone.
      assert (Hf : find (fun x => User.id x =? k) (users s) = None).
      { unfold has_user in Hnone.
        induction (users s) as [|x l IH]; simpl in *; [reflexivity|].
        destruct (User.id x =? k); simpl in *; [discriminate|now apply IH]. }
      unfold_server; unfold_part000. run_body. rewrite Hi. simpl.
      rewrite Hf. split; reflexivity.
  - intros Hi. unfold_server; unfold_part000. run_body. rewrite Hi.
    split; reflexivity.
Qed.
End Reading.


(** ** Likes in a row, and the like of a new upload *)

Lemma iter_liked_likes now n v :
  Video.likes (Nat.iter n (liked_row now) v) = Video.likes v + Z.of_nat n
  /\ Video.views (Nat.iter n (liked_row now) v) = Video.views v.
Proof.
  induction n as [|n [IHl IHv]]; [simpl; split; lia|].
  change (Nat.iter (S n) (liked_row now) v)
    with (liked_row now (Nat.iter n (liked_row now) v)).
  simpl Video.likes. simpl Video.views. split; lia.
Qed.

Section Likes.
Context `{Bcrypt} `{Jwt} `{Env} `{Path} `{Fs} `{Postgres}.

(** Likes count the requests, up to the bound of INTEGER: after [n]
    likes of a stored video that the gate lets through, one after the
    other, the row read back by its key has [n] more likes and the views
    it had, provided the likes stay within INTEGER; and when the video had
    no views (and [n] is not 0) its score is its new number of likes. *)
Lemma likes_count_the_requests now a u i k n : forall v s,
  decoded now a = Some u ->
  as_int4 i = Some k ->
  find (fun w => Video.id w =? k) (videos s) = Some v ->
  0 <= Video.likes v ->
  Video.likes v + Z.of_nat n <= 2147483647 ->
  let s' := repeated (Server.handle now) n (POST_videos_like a i) s in
  find (fun w => Video.id w =? k) (videos s')
  = Some (Nat.iter n (liked_row now) v)
  /\ Video.likes (Nat.iter n (liked_row now) v) = Video.likes v + Z.of_nat n
  /\ Video.views (Nat.iter n (liked_row now) v) = Video.views v
  /\ (Video.views v = 0 -> (0 < n)%nat ->
      Video.recommendationsScore (Nat.iter n (liked_row now) v)
      = JS.js_number (Video.likes v + Z.of_nat n)).
Proof.
  induction n as [|n IH]; intros v s Ha Hi Hf Hpos Hmax s'.
  - simpl in *. repeat split; try lia. exact Hf.
  - pose proof (iter_liked_likes now (S n) v) as [Hl Hv].
    split; [|split; [exact Hl|split; [exact Hv|]]].
    + unfold s'. simpl repeated.
      assert (Hb : int4 (Video.likes v + 1) = true).
      { unfold int4. apply andb_true_iff. split; apply Z.leb_le; lia. }
      rewrite (server_like_found now a u i k v s Ha Hi Hf Hb). simpl fst.
      rewrite Nat.iter_succ_r.
      apply (IH (liked_row now v) (liked now v s) Ha Hi).
      * unfold liked; simpl. now apply find_liked.
      * simpl. lia.
      * simpl. lia.
    + intros Hviews _.
      pose proof (iter_liked_likes now n v) as [Hln Hvn].
      change (Video.recommendationsScore (Nat.iter (S n) (liked_row now) v))
        with (spec_score (Video.likes (Nat.iter n (liked_row now) v) + 1)
                         (Video.views (Nat.iter n (liked_row now) v))).
      rewrite Hln, Hvn, Hviews.
      replace (Video.likes v + Z.of_nat (S n))
        with (Video.likes v + Z.of_nat n + 1) by lia.
      apply spec_score_no_views. lia.
Qed.

End Likes.

Lemma likes_count_the_requests_witness :
  find (fun w => Video.id w =? 1) (videos Demo.store1) = Some Demo.clip
  /\ find (fun w => Video.id w =? 1)
       (videos (repeated (Server.handle 2000) 3
                  (POST_videos_like Demo.bearer1 (Integer 1)) Demo.store1))
     = Some (Nat.iter 3 (liked_row 2000) Demo.clip)
  /\ Video.likes (Nat.iter 3 (liked_row 2000) Demo.clip) = 3.
Proof.
  assert (Hpos : 0 <= Video.likes Demo.clip) by (simpl; lia).
  assert (Hmax : Video.likes Demo.clip + Z.of_nat 3 <= 2147483647)
    by (simpl; lia).
  split; [reflexivity|].
  pose proof (likes_count_the_requests
                2000 Demo.bearer1 (mkPayload (Some (Integer 1))) (Integer 1)
                1 3 Demo.clip Demo.store1
                (demo_bearer1 2000) eq_refl eq_refl Hpos Hmax)
    as (H1 & H2 & _).
  split; [exact H1|exact H2].
Defined.


(** ** The names of the stored files *)

Lemma dotless_string_of_uint d : dotless (NilEmpty.string_of_uint d) = true.
Proof. induction d; simpl; auto. Qed.

Lemma dotless_number z : dotless (number_to_string z) = true.
Proof.
  unfold number_to_string, NilZero.string_of_int, NilZero.string_of_uint.
  destruct (Z.to_int z) as [d|d]; destruct d; simpl;
    auto using dotless_string_of_uint.
Qed.

Lemma to_int_not_nil z : Z.to_int z <> Pos Nil /\ Z.to_int z <> Neg Nil.
Proof.
  destruct z as [|p|p]; simpl; split; try discriminate;
    intros E; injection E as E; now apply Unsigned.to_uint_nonnil in E.
Qed.

Lemma number_to_string_inj z z' :
  number_to_string z = number_to_string z' -> z = z'.
Proof.
  unfold number_to_string. intros E.
  destruct (to_int_not_nil z) as [Hp Hn], (to_int_not_nil z') as [Hp' Hn'].
  pose proof (NilZero.isi _ Hp Hn) as Hz.
  pose proof (NilZero.isi _ Hp' Hn') as Hz'.
  rewrite E, Hz' in Hz. injection Hz as Hz.
  rewrite <- (DecimalZ.of_to z), <- (DecimalZ.of_to z'). now rewrite Hz.
Qed.

Lemma dotless_split s1 : forall s2 e1 e2,
  dotless s1 = true -> dotless s2 = true ->
  is_extension e1 = true -> is_extension e2 = true ->
  s1 ++ e1 = s2 ++ e2 -> s1 = s2 /\ e1 = e2.
Proof.
  induction s1 as [|c s1 IH]; intros [|c2 s2] e1 e2 H1 H2 He1 He2 E;
    simpl in *.
  - now split.
  - subst e1. simpl in He1. apply andb_prop in H2. destruct H2 as [H2 _].
    rewrite He1 in H2. discriminate.
  - subst e2. simpl in He2. apply andb_prop in H1. destruct H1 as [H1 _].
    rewrite He2 in H1. discriminate.
  - injection E as -> E. apply andb_prop in H1, H2.
    destruct H1 as [_ H1], H2 as [_ H2].
    destruct (IH s2 e1 e2 H1 H2 He1 He2 E) as [-> ->]. now split.
Qed.

(** Two stored files have the same name, and their videos the same url,
    exactly when they were stored at the same clock reading and their
    original names have the same extension: the rest of the original name
    plays no part, and files of one extension stored at the same clock
    reading share one name. *)
Lemma storage_names_coincide `{Path} t t' o o' :
  is_extension (path_extname o) = true ->
  is_extension (path_extname o') = true ->
  (storage_filename t o = storage_filename t' o'
   <-> t = t' /\ path_extname o = path_extname o')
  /\ (("/videos/" ++ storage_filename t o = "/videos/" ++ storage_filename t' o')
      <-> t = t' /\ path_extname o = path_extname o').
Proof.
  intros Ho Ho'.
  assert (Hn : storage_filename t o = storage_filename t' o'
               <-> t = t' /\ path_extname o = path_extname o').
  { unfold storage_filename. split.
    - intros E.
      destruct (dotless_split _ _ _ _ (dotless_number t) (dotless_number t')
                  Ho Ho' E) as [Hn He].
      split; [now apply number_to_string_inj|exact He].
    - now intros [-> ->]. }
  split; [exact Hn|]. rewrite <- Hn. split.
  - intros E. simpl in E. now injection E.
  - now intros ->.
Qed.

Lemma storage_names_coincide_witness :
  is_extension (path_extname "cat.mp4") = true
  /\ is_extension (path_extname "dog.mp4") = true
  /\ storage_filename 1700000000123 "cat.mp4" = "1700000000123.mp4"
  /\ storage_filename 1700000000123 "cat.mp4"
     = storage_filename 1700000000123 "dog.mp4".
Proof.
  split; [reflexivity|]. split; [reflexivity|]. split; [reflexivity|].
  apply (proj1 (@storage_names_coincide Demo.path 1700000000123 1700000000123
                  "cat.mp4" "dog.mp4" eq_refl eq_refl)).
  split; reflexivity.
Defined.

(** ** Uploaded files are served *)


Section Served.
Context `{Bcrypt} `{Jwt} `{Env} `{Path} `{Fs} `{Postgres}.

End Served.


(** ** Scores in the reachable states, exactly *)

Section Scores.
Context `{Bcrypt} `{Jwt} `{Env} `{Path} `{Fs} `{Postgres}.

(** In every reachable state of either file the likes of every video are
    within INTEGER and not negative, and its score is its like count: the
    binary64 value is that integer, exactly. *)
Lemma reachable_scores_exact s :
  Server.reachable s \/ Part000.reachable s ->
  Forall (fun v => 0 <= Video.likes v <= 2147483647
                   /\ exactly (Video.recommendationsScore v) (Video.likes v) 1
                      = true)
         (videos s).
Proof.
  intros Hs. apply reachable_schema in Hs. destruct Hs as (_ & Hv & _).
  eapply Forall_impl; [|exact Hv].
  intros v (_ & Hl & Hscore). split; [exact Hl|].
  rewrite Hscore. apply js_number_exact.
  split; [lia|]. apply Z.le_lt_trans with 2147483647; [lia|reflexivity].
Qed.
End Scores.

Lemma reachable_scores_exact_witness :
  Server.reachable (Demo.store_liked 5)
  /\ Forall (fun v => 0 <= Video.likes v <= 2147483647
                      /\ exactly (Video.recommendationsScore v)
                                 (Video.likes v) 1 = true)
            (videos (Demo.store_liked 5)).
Proof.
  assert (Hr : Server.reachable (Demo.store_liked 5))
    by (apply demo_liked_reachable; lia).
  split; [exact Hr|].
  exact (reachable_scores_exact (Demo.store_liked 5) (or_introl Hr)).
Defined.
